(** * gil/dip/ColorSpace.h: colour-space converters

    A shallow embedding of the converter functors of [gil::dip]
    (RgbToGray, RgbToXyz, XyzToRgb, RgbToYCrCb, YCrCbToRgb, RgbToHsv,
    RgbToHsl, RgbToLab, RgbToLuv and the four reverse converters that
    are left as [assert(0)]), generic in the channel storage type the
    way the C++ templates are, together with the properties stated
    about them.

    The C++ [double] is Rocq's primitive binary64 [float]; the same
    converters are also instantiated over the reals with an abstract
    rounding operator (the standard model of floating-point arithmetic)
    for the error analysis of the RGB/XYZ round trip. *)

From Stdlib Require Import ZArith QArith Floats Uint63 Reals Lra Lia List Bool.
Import ListNotations.

Set Warnings "-inexact-float".

Set Implicit Arguments.

(** ** Results of a converter call *)

(** A call of [operator()] either returns a value, stops at a failed
    [assert], or does something for which the language defines no
    behaviour (a floating-point value converted to an integer type that
    cannot hold its truncation; the end of a function that returns a
    value, reached without a [return]). *)
Inductive outcome (A : Type) : Type :=
| Ok (a : A)
| AssertFailed
| Undefined.

Arguments Ok {A} a.
Arguments AssertFailed {A}.
Arguments Undefined {A}.

Definition bind {A B : Type} (m : outcome A) (k : A -> outcome B) : outcome B :=
  match m with
  | Ok a => k a
  | AssertFailed => AssertFailed
  | Undefined => Undefined
  end.

Notation "x <- m ;; k" := (bind m (fun x => k))
  (at level 61, m at next level, right associativity).

(** [assert(e)] of [<cassert>]: with [NDEBUG] defined the macro expands
    to [((void)0)] and [e] is not evaluated; without it a false [e]
    stops the call. *)
Definition assert (NDEBUG e : bool) : outcome unit :=
  if NDEBUG then Ok tt else if e then Ok tt else AssertFailed.

(** The closing brace of a function that returns a value, reached
    without a [return] statement: the behaviour is undefined. *)
Definition end_without_return {X : Type} : outcome X := Undefined.

(** ** Instantiation of a member function *)

(** How a reference of a body is declared: [const tmp_type &X] refers
    to a const object, [tmp_type &X] to one that can be modified. *)
Inductive qualifier : Set :=
| RefToConst
| RefToMutable.

(** The left operand of a compound assignment such as [x /= c] has to
    be a modifiable lvalue: on a reference to a const object of
    arithmetic type the statement is ill-formed. *)
Definition modifiable (q : qualifier) : bool :=
  match q with
  | RefToConst => false
  | RefToMutable => true
  end.

(** [operator()] of a class template is instantiated where it is
    called: either there is a function, or a statement of the body is
    ill-formed for the template arguments and the call does not
    compile. *)
Inductive instantiation (F : Type) : Type :=
| Instantiated (f : F)
| IllFormed.

Arguments Instantiated {F} f.
Arguments IllFormed {F}.

(** ** Pixels *)

(** [Color<T, 3>]: the converters read [from[0]], [from[1]], [from[2]]
    and build [To(a, b, c)]. *)
Record Color (T : Type) : Type := mkColor { c0 : T; c1 : T; c2 : T }.

Arguments mkColor {T} _ _ _.

Definition map_color {T U : Type} (f : T -> U) (p : Color T) : Color U :=
  mkColor (f (c0 p)) (f (c1 p)) (f (c2 p)).

(** ** The arithmetic of [double] expressions *)

(** The operations the converters use on [double] values.  [lit q] is
    the value of the source literal whose decimal expansion is the
    rational [q] (an integer literal converted to [double] included). *)
Class Arith (A : Type) : Type := {
  lit : Q -> A;
  add : A -> A -> A;
  sub : A -> A -> A;
  mul : A -> A -> A;
  div : A -> A -> A;
  ltb : A -> A -> bool;
  eqb : A -> A -> bool
}.

Declare Scope arith_scope.
Delimit Scope arith_scope with ar.
Infix "+" := add : arith_scope.
Infix "-" := sub : arith_scope.
Infix "*" := mul : arith_scope.
Infix "/" := div : arith_scope.

(** ** Binary64 *)

Module B64.

(** An [int] converted to [double]; exact for the magnitudes that
      occur here (below 2^53). *)
Definition of_Z (z : Z) : float :=
    match z with
    | Z0 => PrimFloat.zero
    | Zpos _ => PrimFloat.of_uint63 (Uint63.of_Z z)
    | Zneg p => PrimFloat.opp (PrimFloat.of_uint63 (Uint63.of_Z (Zpos p)))
    end.

(** A decimal literal: numerator and denominator are exact doubles, so
      the IEEE division is the double nearest to the decimal number,
      which is the value the compiler gives the literal. *)
Definition of_Q (q : Q) : float :=
    PrimFloat.div (of_Z (Qnum q)) (of_Z (Zpos (Qden q))).

(** Truncation toward zero of a finite double, as a double to integer
      conversion does; [None] for NaN and the infinities. *)
Definition trunc (x : float) : option Z :=
    match Prim2SF x with
    | S754_zero _ => Some 0%Z
    | S754_finite s m e =>
        let a := match e with
                 | Zneg k => Z.shiftr (Zpos m) (Zpos k)
                 | _ => Z.shiftl (Zpos m) e
                 end in
        Some (if s then Z.opp a else a)
    | S754_infinity _ => None
    | S754_nan => None
    end.

#[global] Instance arith : Arith float := {
    lit := of_Q;
    add := PrimFloat.add;
    sub := PrimFloat.sub;
    mul := PrimFloat.mul;
    div := PrimFloat.div;
    ltb := PrimFloat.ltb;
    eqb := PrimFloat.eqb
  }.

End B64.

(** ** Channel storage types *)

(** What a converter instantiated at [Color<T, 3>] uses of the channel
    type [T]: the traits of [gil.h] and the conversions the expressions
    of [ColorSpace.h] apply to a [T] operand.  [A] is the type the
    arithmetic is done in. *)
Class Channel (T A : Type) : Type := {
(** [TypeTrait<T>::opaque()] *)
  opaque : T;
(** [const value_type delta = x / 2;] *)
  halve : T -> T;
(** a [T] operand of a [double] operation *)
  widen : T -> A;
(** [a - b] on two [T] operands, as an operand of a [double] operation *)
  diff : T -> T -> A;
(** [static_cast<T>(x)], also the conversion of an argument of [To(...)] *)
  static_cast : A -> outcome T;
(** [DefaultConverter<tmp_color, Color<T,3>>] on one channel *)
  DefaultConverter : T -> A
}.

(** Integer storage of [w] bits, as [Z]: the operands of [-] and [/] are
    promoted to [int], a [double] is truncated, and a truncation that the
    type cannot hold is undefined. *)
Definition int_cast (w : Z) (x : float) : outcome Z :=
  match B64.trunc x with
  | Some z => if ((0 <=? z) && (z <? 2 ^ w))%Z then Ok z else Undefined
  | None => Undefined
  end.

(** Modelled from the spec: [TypeTrait<T>::opaque()], [ExtendedType] and
    [DefaultConverter] are declared in [gil.h], which is not part of the
    sources at hand.  The opaque value is the largest value of the type
    (255, 65535) and 1.0 for floating point, the extended type is the
    wider floating-point type, and the default converter changes the
    precision of a channel and scales it to the range 0..1 of the
    extended type, the opaque value becoming 1. *)
Definition int_channel (w : Z) : Channel Z float := {|
  opaque := (2 ^ w - 1)%Z;
  halve := fun x => (x / 2)%Z;
  widen := B64.of_Z;
  diff := fun a b => B64.of_Z (a - b);
  static_cast := int_cast w;
  DefaultConverter := fun x => PrimFloat.div (B64.of_Z x) (B64.of_Z (2 ^ w - 1))
|}.

Definition Byte1 : Channel Z float := int_channel 8.
Definition Byte2 : Channel Z float := int_channel 16.

(** Modelled from the spec: as above, for floating-point storage, where
    channel and extended type are the same type and every conversion is
    the identity.  This is also the channel type of [tmp_color]. *)
Definition Ext {A : Type} {AR : Arith A} : Channel A A := {|
  opaque := lit 1;
  halve := fun x => div x (lit 2);
  widen := fun x => x;
  diff := sub;
  static_cast := fun x => Ok x;
  DefaultConverter := fun x => x
|}.

(** [double] channels.  (Single precision storage would round every
    stored channel to binary32 and is not modelled.) *)
Definition Float8 : Channel float float := Ext.

(** ** The converters *)

Section Converters.

Context {T A : Type} {AR : Arith A} (CH : Channel T A).

Local Open Scope arith_scope.

(** [To(a, b, c)] with [double] arguments: each is converted to the
    channel type. *)
Definition To (a b c : A) : outcome (Color T) :=
  x <- static_cast a ;;
  y <- static_cast b ;;
  z <- static_cast c ;;
  Ok (mkColor x y z).

(** [RgbToGray< Color<T, C> >::operator()] *)
Definition RgbToGray (from : Color T) : outcome T :=
  static_cast
    (lit (299 # 1000) * widen (c0 from)
     + lit (587 # 1000) * widen (c1 from)
     + lit (114 # 1000) * widen (c2 from)).

(** [RgbToXyz<T>::operator()] *)
Definition RgbToXyz (from : Color T) : outcome (Color T) :=
  To (lit (412453 # 1000000) * widen (c0 from)
      + lit (357580 # 1000000) * widen (c1 from)
      + lit (180423 # 1000000) * widen (c2 from))
     (lit (212671 # 1000000) * widen (c0 from)
      + lit (715160 # 1000000) * widen (c1 from)
      + lit (72169 # 1000000) * widen (c2 from))
     (lit (19334 # 1000000) * widen (c0 from)
      + lit (119193 # 1000000) * widen (c1 from)
      + lit (950227 # 1000000) * widen (c2 from)).

(** [XyzToRgb<T>::operator()] *)
Definition XyzToRgb (from : Color T) : outcome (Color T) :=
  To (lit (3240479 # 1000000) * widen (c0 from)
      + lit (-153715 # 100000) * widen (c1 from)
      + lit (-498535 # 1000000) * widen (c2 from))
     (lit (-969256 # 1000000) * widen (c0 from)
      + lit (1875991 # 1000000) * widen (c1 from)
      + lit (41556 # 1000000) * widen (c2 from))
     (lit (55648 # 1000000) * widen (c0 from)
      + lit (-204043 # 1000000) * widen (c1 from)
      + lit (1057311 # 1000000) * widen (c2 from)).

(** [const value_type delta = TypeTrait<value_type>::opaque() / 2;] *)
Definition delta : T := halve opaque.

(** [RgbToYCrCb<T>::operator()] *)
Definition RgbToYCrCb (from : Color T) : outcome (Color T) :=
  let R := c0 from in
  let B := c2 from in
  Y <- RgbToGray from ;;
  Cr <- static_cast (diff R Y * lit (713 # 1000) + widen delta) ;;
  Cb <- static_cast (diff B Y * lit (564 # 1000) + widen delta) ;;
  Ok (mkColor Y Cr Cb).

(** [YCrCbToRgb<T>::operator()] *)
Definition YCrCbToRgb (from : Color T) : outcome (Color T) :=
  let Y := c0 from in
  let Cr := c1 from in
  let Cb := c2 from in
  R <- static_cast (widen Y + lit (1403 # 1000) * diff Cr delta) ;;
  G <- static_cast (widen Y - lit (714 # 1000) * diff Cr delta
                    - lit (344 # 1000) * diff Cb delta) ;;
  B <- static_cast (widen Y + lit (1773 # 1000) * diff Cb delta) ;;
  Ok (mkColor R G B).

(** [max] and [min] on [tmp_type]: [std::max], [std::min] *)
Definition std_max (a b : A) : A := if ltb a b then b else a.
Definition std_min (a b : A) : A := if ltb b a then b else a.

(** [RgbToHsv<T>::operator()] *)
Definition RgbToHsv (from : Color T) : outcome (Color T) :=
  let tmp := map_color DefaultConverter from in
  let R := c0 tmp in
  let G := c1 tmp in
  let B := c2 tmp in
  let V := std_max (std_max R G) (std_max G B) in
  let S := if negb (eqb V (lit 0))
           then (V - std_min (std_min R G) (std_min G B)) / V
           else lit 0 in
  let H := if eqb V R then (G - B) * lit 60 / S
           else if eqb V G then lit 120 + (B - R) * lit 60 / S
           else lit 240 + (R - G) * lit 60 / S in
  let H := if ltb H (lit 0) then H + lit 360 else H in
  To H S V.

(** The four reverse converters.  The body of each is [assert(0);]
    and nothing else: no [return], and no statement that reads or
    writes [from].  The first component is how the call ends, the
    second the pixel that [from] is bound to, which is the caller's, as
    the statements of the body leave it. *)

(** [HsvToRgb<T>::operator()] *)
Definition HsvToRgb (NDEBUG : bool) (from : Color T) : outcome (Color T) * Color T :=
  (_ <- assert NDEBUG false ;; end_without_return, from).

(** [RgbToHsl<T>::operator()] *)
Definition RgbToHsl (from : Color T) : outcome (Color T) :=
  let tmp := map_color DefaultConverter from in
  let R := c0 tmp in
  let G := c1 tmp in
  let B := c2 tmp in
  let Vmax := std_max (std_max R G) (std_max G B) in
  let Vmin := std_min (std_min R G) (std_min G B) in
  let L := (Vmax + Vmin) / lit 2 in
  let S := if ltb L (lit (5 # 10))
           then (Vmax - Vmin) / (Vmax + Vmin)
           else (Vmax - Vmin) / (lit 2 - (Vmax + Vmin)) in
  let H := if eqb Vmax R then (G - B) * lit 60 / S
           else if eqb Vmax G then lit 120 + (B - R) * lit 60 / S
           else lit 240 + (R - G) * lit 60 / S in
  let H := if ltb H (lit 0) then H + lit 360 else H in
  To H S L.

(** [HslToRgb<T>::operator()] *)
Definition HslToRgb (NDEBUG : bool) (from : Color T) : outcome (Color T) * Color T :=
  (_ <- assert NDEBUG false ;; end_without_return, from).

(** [LabToRgb<T>::operator()] *)
Definition LabToRgb (NDEBUG : bool) (from : Color T) : outcome (Color T) * Color T :=
  (_ <- assert NDEBUG false ;; end_without_return, from).

(** [LuvToRgb<T>::operator()] *)
Definition LuvToRgb (NDEBUG : bool) (from : Color T) : outcome (Color T) * Color T :=
  (_ <- assert NDEBUG false ;; end_without_return, from).

End Converters.

(** The two converters that go through [RgbToXyz<tmp_color>]. *)
Section LabLuv.

Context {T A : Type} {AR : Arith A} (CH : Channel T A).

Local Open Scope arith_scope.

(** [std::pow] of the C library. *)
Variable pow : A -> A -> A.

(** [RgbToLab<T>::f] *)
Definition RgbToLab_f (t : A) : A :=
  if ltb (lit (8856 # 1000000)) t
  then pow t (lit 1 / lit 3)
  else lit (7787 # 1000) * t + lit 16 / lit 116.

(** The body of [RgbToLab<T>::operator()], with the references [X] and
    [Z] to the channels of [tmp] declared as [qX] and [qZ].  The
    statements [X /= 0.950456; Z /= 1.088754;] divide the two channels
    in place, and need both references to be modifiable. *)
Definition RgbToLab_operator (qX qZ : qualifier)
    : instantiation (Color T -> outcome (Color T)) :=
  if modifiable qX && modifiable qZ
  then Instantiated (fun from =>
    tmp <- RgbToXyz Ext (map_color DefaultConverter from) ;;
    let X := c0 tmp / lit (950456 # 1000000) in
    let Y := c1 tmp in
    let Z := c2 tmp / lit (1088754 # 1000000) in
    let delta := lit 0 in
    let L := if ltb (lit (8856 # 1000000)) Y
             then lit 116 * pow Y (lit 1 / lit 3)
             else lit (9033 # 10) * Y in
    let a := lit 500 * (RgbToLab_f X - RgbToLab_f Y) + delta in
    let b := lit 200 * (RgbToLab_f Y - RgbToLab_f Z) + delta in
    To CH L a b)
  else IllFormed.

(** [RgbToLab<T>::operator()]: the source declares [const tmp_type &X],
    [const tmp_type &Y] and [const tmp_type &Z]. *)
Definition RgbToLab : instantiation (Color T -> outcome (Color T)) :=
  RgbToLab_operator RefToConst RefToConst.

(** [RgbToLuv<T>::operator()] *)
Definition RgbToLuv (from : Color T) : outcome (Color T) :=
  tmp <- RgbToXyz Ext (map_color DefaultConverter from) ;;
  let X := c0 tmp in
  let Y := c1 tmp in
  let Z := c2 tmp in
  let L := if ltb (lit (8856 # 1000000)) Y
           then lit 116 * pow Y (lit 1 / lit 3) - lit 16
           else lit (9033 # 10) * Y in
  let u_ := lit 4 * X / (X + lit 15 * Y + lit 3 * Z) in
  let v_ := lit 9 * Y / (X + lit 15 * Y + lit 3 * Z) in
  let un := lit (19793943 # 100000000) in
  let vn := lit (46831096 # 100000000) in
  let u := lit 13 * L * (u_ - un) in
  let v := lit 13 * L * (v_ - vn) in
  To CH L u v.

End LabLuv.

(** ** References: widen, compute in extended precision, narrow once *)

(** The converters as the design describes them: the input pixel is
    widened to the extended type, the documented formula is evaluated
    there, and each result channel is narrowed one time.  These follow
    the description, not the source; the properties below compare the
    two. *)
Section Reference.

Context {T A : Type} {AR : Arith A} (CH : Channel T A).

Local Open Scope arith_scope.

(** The offset as the design describes it: half of the opaque value,
    taken in the extended type (127.5 for 8-bit storage). *)
Definition delta_ext : A := widen opaque / lit 2.

(** The offset of the source, [opaque() / 2] evaluated in the channel
    type (127 for 8-bit storage), as an operand of a [double]
    operation. *)
Definition delta_widened : A := widen (delta CH).

Definition narrow (c : Color A) : outcome (Color T) :=
  x <- static_cast (c0 c) ;;
  y <- static_cast (c1 c) ;;
  z <- static_cast (c2 c) ;;
  Ok (mkColor x y z).

Definition gray_ext (p : Color A) : A :=
  lit (299 # 1000) * c0 p + lit (587 # 1000) * c1 p + lit (114 # 1000) * c2 p.

Definition xyz_ext (p : Color A) : Color A :=
  mkColor
    (lit (412453 # 1000000) * c0 p + lit (357580 # 1000000) * c1 p
     + lit (180423 # 1000000) * c2 p)
    (lit (212671 # 1000000) * c0 p + lit (715160 # 1000000) * c1 p
     + lit (72169 # 1000000) * c2 p)
    (lit (19334 # 1000000) * c0 p + lit (119193 # 1000000) * c1 p
     + lit (950227 # 1000000) * c2 p).

Definition rgb_of_xyz_ext (p : Color A) : Color A :=
  mkColor
    (lit (3240479 # 1000000) * c0 p + lit (-153715 # 100000) * c1 p
     + lit (-498535 # 1000000) * c2 p)
    (lit (-969256 # 1000000) * c0 p + lit (1875991 # 1000000) * c1 p
     + lit (41556 # 1000000) * c2 p)
    (lit (55648 # 1000000) * c0 p + lit (-204043 # 1000000) * c1 p
     + lit (1057311 # 1000000) * c2 p).

(** Forward YCrCb with the offset [d]: every channel from the widened
    input, [Y] included. *)
Definition ycrcb_ext (d : A) (p : Color A) : Color A :=
  let Y := gray_ext p in
  mkColor Y ((c0 p - Y) * lit (713 # 1000) + d) ((c2 p - Y) * lit (564 # 1000) + d).

(** Reverse YCrCb with the offset [d]: 0.714 on the Cr term and 0.344 on
    the Cb term of G. *)
Definition rgb_of_ycrcb_ext (d : A) (p : Color A) : Color A :=
  let Y := c0 p in
  let Cr := c1 p in
  let Cb := c2 p in
  mkColor (Y + lit (1403 # 1000) * (Cr - d))
          (Y - lit (714 # 1000) * (Cr - d) - lit (344 # 1000) * (Cb - d))
          (Y + lit (1773 # 1000) * (Cb - d)).

(** The ordering of the reference documentation: 0.714 on the Cb term
    and 0.344 on the Cr term of G. *)
Definition rgb_of_ycrcb_swapped (d : A) (p : Color A) : Color A :=
  let Y := c0 p in
  let Cr := c1 p in
  let Cb := c2 p in
  mkColor (Y + lit (1403 # 1000) * (Cr - d))
          (Y - lit (714 # 1000) * (Cb - d) - lit (344 # 1000) * (Cr - d))
          (Y + lit (1773 # 1000) * (Cb - d)).

Definition max3 (p : Color A) : A := std_max (std_max (c0 p) (c1 p)) (std_max (c1 p) (c2 p)).
Definition min3 (p : Color A) : A := std_min (std_min (c0 p) (c1 p)) (std_min (c1 p) (c2 p)).

(** Hue in degrees from the maximum [V] and the saturation [S], wrapped
    into the non-negative range. *)
Definition hue (V S : A) (p : Color A) : A :=
  let R := c0 p in
  let G := c1 p in
  let B := c2 p in
  let H := if eqb V R then (G - B) * lit 60 / S
           else if eqb V G then lit 120 + (B - R) * lit 60 / S
           else lit 240 + (R - G) * lit 60 / S in
  if ltb H (lit 0) then H + lit 360 else H.

(** Raw HSV: H in degrees, S and V on the scale of the input. *)
Definition hsv_ext (p : Color A) : Color A :=
  let V := max3 p in
  let S := if eqb V (lit 0) then lit 0 else (V - min3 p) / V in
  mkColor (hue V S p) S V.

(** Raw HSL. *)
Definition hsl_ext (p : Color A) : Color A :=
  let Vmax := max3 p in
  let Vmin := min3 p in
  let L := (Vmax + Vmin) / lit 2 in
  let S := if ltb L (lit (5 # 10))
           then (Vmax - Vmin) / (Vmax + Vmin)
           else (Vmax - Vmin) / (lit 2 - (Vmax + Vmin)) in
  mkColor (hue Vmax S p) S L.

Variable pow : A -> A -> A.

(** Lightness of Luv: 116 Y^(1/3) - 16 above the threshold, 903.3 Y at
    or below it. *)
Definition lightness (Y : A) : A :=
  if ltb (lit (8856 # 1000000)) Y
  then lit 116 * pow Y (lit 1 / lit 3) - lit 16
  else lit (9033 # 10) * Y.

Definition luv_ext (p : Color A) : Color A :=
  let xyz := xyz_ext p in
  let X := c0 xyz in
  let Y := c1 xyz in
  let Z := c2 xyz in
  let L := lightness Y in
  let den := X + lit 15 * Y + lit 3 * Z in
  mkColor L
          (lit 13 * L * (lit 4 * X / den - lit (19793943 # 100000000)))
          (lit 13 * L * (lit 9 * Y / den - lit (46831096 # 100000000))).

(** A converter that widens through the implicit conversion of its
    operands, and one that widens through [DefaultConverter]. *)
Definition narrow_once (F : Color A -> Color A) (from : Color T) : outcome (Color T) :=
  narrow (F (map_color widen from)).

Definition narrow_once_tmp (F : Color A -> Color A) (from : Color T) : outcome (Color T) :=
  narrow (F (map_color DefaultConverter from)).

End Reference.

(** ** Enumeration of a storage range *)

(** [P] on every number of [n] bits, by its binary digits. *)
Fixpoint forall_bits (n : nat) (P : Z -> bool) : bool :=
  match n with
  | O => P 0%Z
  | S k => forall_bits k (fun z => P (2 * z)%Z) && forall_bits k (fun z => P (2 * z + 1)%Z)
  end.

(** [a - delta] is the same number whether the subtraction is done on
    the promoted integers or on the converted doubles. *)
Definition diff_delta_exact (w : Z) (z : Z) : bool :=
  PrimFloat.Leibniz.eqb (diff (Channel := int_channel w) z (delta (int_channel w)))
                        (sub (widen (Channel := int_channel w) z)
                             (widen (Channel := int_channel w) (delta (int_channel w)))).

(** A channel value of [w]-bit storage. *)
Definition in_range (w : Z) (z : Z) : Prop := (0 <= z < 2 ^ w)%Z.

(** [a - b] is the same number whether the subtraction is done on the
    promoted integers or on the converted doubles. *)
Definition diff_exact (w : Z) (a b : Z) : bool :=
  PrimFloat.Leibniz.eqb (diff (Channel := int_channel w) a b)
                        (sub (widen (Channel := int_channel w) a)
                             (widen (Channel := int_channel w) b)).

(** Forward YCrCb in the order of the source: [Y] is narrowed first, and
    the chroma channels are computed in extended precision from the
    narrowed [Y], widened again. *)
Definition ycrcb_narrowed_Y {T A : Type} {AR : Arith A} (CH : Channel T A)
    (from : Color T) : outcome (Color T) :=
  Y <- static_cast (gray_ext (map_color widen from)) ;;
  Cr <- static_cast (add (mul (sub (widen (c0 from)) (widen Y)) (lit (713 # 1000)))
                         (widen (delta CH))) ;;
  Cb <- static_cast (add (mul (sub (widen (c2 from)) (widen Y)) (lit (564 # 1000)))
                         (widen (delta CH))) ;;
  Ok (mkColor Y Cr Cb).

(** ** The reals with a rounding operator *)

(** Every operation and every literal is the exact result rounded by
    [rnd]; comparisons are exact. *)
Definition R_arith (rnd : R -> R) : Arith R := {|
  lit := fun q => rnd (Q2R q);
  add := fun x y => rnd (x + y)%R;
  sub := fun x y => rnd (x - y)%R;
  mul := fun x y => rnd (x * y)%R;
  div := fun x y => rnd (x / y)%R;
  ltb := fun x y => if Rlt_dec x y then true else false;
  eqb := fun x y => if Req_dec_T x y then true else false
|}.

(** Floating-point storage over that arithmetic. *)
Definition Real (rnd : R -> R) : Channel R R := @Ext R (R_arith rnd).

(** The unit roundoff of single precision, which bounds that of double
    precision, and a bound of the absolute error of a result in the
    subnormal range. *)
Definition unit_roundoff : R := (/ 16777216)%R.
Definition underflow_unit : R := (/ 1267650600228229401496703205376)%R.

(** The standard model of rounding to nearest: a relative error of at
    most 2^-24 and an absolute error of at most 2^-100. *)
Definition standard_model (rnd : R -> R) : Prop :=
  forall x : R,
    (Rabs (rnd x - x) <= unit_roundoff * Rabs x + underflow_unit)%R.

(** A rounding that is always off by the whole relative bound. *)
Definition inflate (x : R) : R := (x + x / 16777216)%R.

(** [x] is within [e] of [x0]; [x] is at most [M] in magnitude. *)
Definition approx (x x0 e : R) : Prop := (x0 - e <= x <= x0 + e)%R.
Definition bounded (x M : R) : Prop := (- M <= x <= M)%R.

(** Error bounds: of a rounding of a value within [e] of one bounded by
    [M]; of a rounded product of a literal bounded by [C] and such a
    value; of the rounded sum of three such products. *)
Definition E_rnd (M e : R) : R := (e + ((M + e) * unit_roundoff + underflow_unit))%R.

Definition E_term (C M e : R) : R :=
  let ec := E_rnd C 0 in
  E_rnd (C * M) (C * e + M * ec + ec * e)%R.

Definition E_dot (C1 C2 C3 M1 M2 M3 e1 e2 e3 : R) : R :=
  let t1 := E_term C1 M1 e1 in
  let t2 := E_term C2 M2 e2 in
  let t3 := E_term C3 M3 e3 in
  let s := E_rnd (C1 * M1 + C2 * M2) (t1 + t2)%R in
  E_rnd (C1 * M1 + C2 * M2 + C3 * M3) (s + t3)%R.

(** A row of a matrix applied to a pixel, in the rounded arithmetic. *)
Definition dot (rnd : R -> R) (c1 c2 c3 : Q) (x y z : R) : R :=
  rnd (rnd (rnd (rnd (Q2R c1) * x) + rnd (rnd (Q2R c2) * y)) + rnd (rnd (Q2R c3) * z))%R.

(** [RgbToXyz] followed by [XyzToRgb]. *)
Definition roundtrip {T A : Type} {AR : Arith A} (CH : Channel T A)
    (from : Color T) : outcome (Color T) :=
  xyz <- RgbToXyz CH from ;; XyzToRgb CH xyz.

Definition unit_range (x : R) : Prop := (0 <= x <= 1)%R.

(** The tolerance of the round trip. *)
Definition tolerance : Q := 1 # 100000.

(** Binary64: both pixels are within the tolerance of each other,
    channel by channel. *)
Definition close (x y : float) : bool :=
  PrimFloat.leb (PrimFloat.abs (PrimFloat.sub x y)) (B64.of_Q tolerance).

Definition close_color (p q : Color float) : bool :=
  close (c0 p) (c0 q) && close (c1 p) (c1 q) && close (c2 p) (c2 q).

(** The pixels whose channels are multiples of 1/8 in 0..1. *)
Definition grid : list (Color float) :=
  let steps := map (fun k => PrimFloat.div (B64.of_Z (Z.of_nat k)) (B64.of_Z 8)) (seq 0 9) in
  flat_map (fun r => flat_map (fun g => map (fun b => mkColor r g b) steps) steps) steps.

Definition roundtrip_close (p : Color float) : bool :=
  match roundtrip Float8 p with
  | Ok q => close_color q p
  | _ => false
  end.

(** ** The template declarations *)

(** The thirteen converter templates. *)
Inductive converter : Set :=
| cRgbToGray | cRgbToXyz | cXyzToRgb | cRgbToYCrCb | cYCrCbToRgb
| cRgbToHsv | cHsvToRgb | cRgbToHsl | cHslToRgb
| cRgbToLab | cLabToRgb | cRgbToLuv | cLuvToRgb.

(** A template argument: [Color<T, C>] with [C] channels, or a type that
    is no [Color]. *)
Inductive pixel_type : Set :=
| ColorOf (C : nat)
| OtherType.

(** The argument pattern of a declaration: the primary template
    [template<typename T> struct X], the partial specialization
    [X< Color<T, C> >], and the partial specialization
    [X< Color<T, 2> >]. *)
Inductive pattern : Set :=
| AnyType
| AnyColor
| TwoChannels.

(** A declaration: its pattern, and whether it has a body. *)
Record declaration : Set := mkDecl { pat : pattern; has_body : bool }.

(** The declarations of [ColorSpace.h].  [RgbToGray] is declared, then
    defined for [Color<T, C>]; the others are defined as primary
    templates.  Each is followed by a declaration for [Color<T, 2>]
    without a body. *)
Definition declarations (c : converter) : list declaration :=
  match c with
  | cRgbToGray =>
      [mkDecl AnyType false; mkDecl AnyColor true; mkDecl TwoChannels false]
  | _ =>
      [mkDecl AnyType true; mkDecl TwoChannels false]
  end.

Definition matches (p : pattern) (t : pixel_type) : bool :=
  match p, t with
  | AnyType, _ => true
  | AnyColor, ColorOf _ => true
  | TwoChannels, ColorOf 2 => true
  | _, _ => false
  end.

(** How specialized a pattern is. *)
Definition rank (p : pattern) : nat :=
  match p with
  | AnyType => 0
  | AnyColor => 1
  | TwoChannels => 2
  end.

(** The most specialized declaration that matches the argument. *)
Fixpoint select (ds : list declaration) (t : pixel_type) : option declaration :=
  match ds with
  | [] => None
  | d :: ds' =>
      match select ds' t with
      | Some d' =>
          if matches (pat d) t && Nat.ltb (rank (pat d')) (rank (pat d))
          then Some d else Some d'
      | None => if matches (pat d) t then Some d else None
      end
  end.

Inductive build : Set :=
| Compiles
| IncompleteType.

(** Using [X<t>()(from)] needs the selected declaration to have a body.
    (Whether the statements of [operator()] are well-formed for [t] is
    a matter of the member's own instantiation, see [instantiation].) *)
Definition instantiate (c : converter) (t : pixel_type) : build :=
  match select (declarations c) t with
  | Some d => if has_body d then Compiles else IncompleteType
  | None => IncompleteType
  end.

(** ** Checks over the 8-bit range *)

(** The achromatic pixel of level [v]. *)
Definition gray_pixel {T : Type} (v : T) : Color T := mkColor v v v.

Definition color_eqb (p q : Color Z) : bool :=
  ((c0 p =? c0 q) && (c1 p =? c1 q) && (c2 p =? c2 q))%Z.

Definition outcome_eqb {X : Type} (e : X -> X -> bool) (a b : outcome X) : bool :=
  match a, b with
  | Ok x, Ok y => e x y
  | AssertFailed, AssertFailed => true
  | Undefined, Undefined => true
  | _, _ => false
  end.

(** The luminance of the 8-bit gray pixel of level [v] is [v] or [v - 1]. *)
Definition gray_level_kept (v : Z) : bool :=
  match RgbToGray Byte1 (gray_pixel v) with
  | Ok y => ((y =? v) || (y =? v - 1))%Z
  | _ => false
  end.

(** The 8-bit gray pixel of level [v] gets its luminance and the offset
    in both chroma channels. *)
Definition gray_chroma_is_delta (v : Z) : bool :=
  outcome_eqb color_eqb
    (RgbToYCrCb Byte1 (gray_pixel v))
    (y <- RgbToGray Byte1 (gray_pixel v) ;; Ok (mkColor y (delta Byte1) (delta Byte1))).

(** The 8-bit YCrCb pixel of luminance [y] and chroma at the offset is
    decoded to the gray pixel of level [y]. *)
Definition neutral_chroma_is_gray (y : Z) : bool :=
  outcome_eqb color_eqb
    (YCrCbToRgb Byte1 (mkColor y (delta Byte1) (delta Byte1)))
    (Ok (gray_pixel y)).

Definition is_undefined {X : Type} (a : outcome X) : bool :=
  match a with
  | Undefined => true
  | _ => false
  end.

(** [RgbToXyz] leaves the 8-bit range on the pixel (r,255,255). *)
Definition xyz_overflows (r : Z) : bool :=
  is_undefined (RgbToXyz Byte1 (mkColor r 255 255)%Z).

(** [XyzToRgb] leaves the 8-bit range on the pixel (0,y+1,0). *)
Definition rgb_underflows (y : Z) : bool :=
  is_undefined (XyzToRgb Byte1 (mkColor 0 (y + 1) 0)%Z).

(** [RgbToHsv] and [RgbToHsl] have no defined result on the 8-bit gray
    pixel of level [v]. *)
Definition gray_hue_undefined (v : Z) : bool :=
  is_undefined (RgbToHsv Byte1 (gray_pixel v)) && is_undefined (RgbToHsl Byte1 (gray_pixel v)).

(** ** Exact arithmetic *)

(** The reals without rounding, in which no build computes.  They
    serve for one comparison only: what the decoder with the two
    coefficients of G exchanged, which the source does not have, would
    return for pure red. *)
Definition exact (x : R) : R := x.

Definition Exact : Channel R R := Real exact.

(** ** Tracking a rounded value *)

(** [x] is within [e] of the exact value [x0], which is at most [M] in
    magnitude. *)
Definition track (x x0 e M : R) : Prop :=
  approx x x0 e /\ bounded x0 M /\ (0 <= e)%R /\ (0 <= M)%R.

(** A bound of [E_rnd] with short constants: 6/10^8 above the unit
    roundoff and 1/10^12 above the underflow unit. *)
Definition E_simple (M e : R) : R :=
  (e + (M + e) * (6 / 100000000) + / 1000000000000)%R.

(** ** The power function *)

(** [pow y e] for an exponent [e] within a millionth of 1/3 and [y]
    between 1/200 and 2 is within 2/100000 of the cube root of [y]. *)
Definition pow_near_cube_root (pow : R -> R -> R) : Prop :=
  forall y e : R,
    (1 / 200 <= y <= 2)%R -> (Rabs (e - 1 / 3) <= 1 / 1000000)%R ->
    exists c : R, (0 < c /\ c * c * c = y /\ Rabs (pow y e - c) <= 2 / 100000)%R.

(** * Properties *)

(** ** Truncation *)

(** The integer a finite double is cast to is the quotient, rounded
    toward zero, of its signed mantissa by the power of two of its
    negative exponent. *)
Lemma trunc_finite_quot (x : float) (s : bool) (m k : positive) :
  Prim2SF x = S754_finite s m (Zneg k) ->
  B64.trunc x = Some (Z.quot (if s then Zneg m else Zpos m) (2 ^ Zpos k)).
Proof.
  intros E. unfold B64.trunc. rewrite E. f_equal.
  rewrite Z.shiftr_div_pow2 by lia.
  assert (Hp : (0 < 2 ^ Zpos k)%Z) by (apply Z.pow_pos_nonneg; lia).
  destruct s.
  - change (Zneg m) with (- Zpos m)%Z.
    rewrite Z.quot_opp_l by lia. f_equal.
    symmetry. apply Z.quot_div_nonneg; lia.
  - symmetry. apply Z.quot_div_nonneg; lia.
Qed.

(** ** RGB to luminance *)

(** C7: RgbToGray returns Y = 0.299*R + 0.587*G + 0.114*B, evaluated in
    double and narrowed by the cast to the channel type, which for
    integer storage truncates; on the 8-bit pure red pixel (255,0,0) the
    result is 76 (and 75, not 76, on (254,0,0), whose luminance is
    75.946). *)
Theorem RgbToGray_formula :
  (forall (T A : Type) (AR : Arith A) (CH : Channel T A) (from : Color T),
      RgbToGray CH from =
      static_cast (add (add (mul (lit (299 # 1000)) (widen (c0 from)))
                            (mul (lit (587 # 1000)) (widen (c1 from))))
                       (mul (lit (114 # 1000)) (widen (c2 from))))) /\
  (forall R G B : Z,
      RgbToGray Byte1 (mkColor R G B) =
      int_cast 8 (0.299 * B64.of_Z R + 0.587 * B64.of_Z G + 0.114 * B64.of_Z B)%float) /\
  (forall R G B : Z,
      RgbToGray Byte2 (mkColor R G B) =
      int_cast 16 (0.299 * B64.of_Z R + 0.587 * B64.of_Z G + 0.114 * B64.of_Z B)%float) /\
  (forall R G B : float,
      RgbToGray Float8 (mkColor R G B) =
      Ok (0.299 * R + 0.587 * G + 0.114 * B)%float) /\
  RgbToGray Byte1 (mkColor 255 0 0)%Z = Ok 76%Z /\
  RgbToGray Byte2 (mkColor 255 0 0)%Z = Ok 76%Z /\
  RgbToGray Byte1 (mkColor 254 0 0)%Z = Ok 75%Z.
Proof.
  repeat split; try reflexivity; vm_compute; reflexivity.
Qed.

(** ** The reverse converters without an implementation *)

(** C3, as stated, fails: the trap is not unconditional.  Built with
    [NDEBUG], none of the four reverse converters stops at its
    assertion on the 8-bit pixel (0,0,0); control reaches the end of a
    body that has no [return], and what the call does then is
    undefined. *)
Lemma reverse_converters_do_not_trap_with_NDEBUG :
  fst (HsvToRgb true (mkColor 0 0 0)%Z) <> AssertFailed /\
  fst (HslToRgb true (mkColor 0 0 0)%Z) <> AssertFailed /\
  fst (LabToRgb true (mkColor 0 0 0)%Z) <> AssertFailed /\
  fst (LuvToRgb true (mkColor 0 0 0)%Z) <> AssertFailed /\
  fst (HsvToRgb true (mkColor 0 0 0)%Z) = Undefined.
Proof.
  repeat split; cbn; discriminate.
Qed.

(** C3, amended: built with assertions enabled ([NDEBUG] not defined),
    HsvToRgb, HslToRgb, LabToRgb and LuvToRgb stop at the failed
    assertion on every pixel, for every storage type: they return no
    pixel, and the pixel passed by reference is as the caller left it.
    Built with [NDEBUG], control flows off the end of each body and the
    behaviour is undefined. *)
Theorem reverse_converters_trap :
  forall (T : Type) (from : Color T),
    (HsvToRgb false from = (AssertFailed, from) /\
     HslToRgb false from = (AssertFailed, from) /\
     LabToRgb false from = (AssertFailed, from) /\
     LuvToRgb false from = (AssertFailed, from)) /\
    (forall to after : Color T,
        HsvToRgb false from <> (Ok to, after) /\
        HslToRgb false from <> (Ok to, after) /\
        LabToRgb false from <> (Ok to, after) /\
        LuvToRgb false from <> (Ok to, after)) /\
    (fst (HsvToRgb true from) = Undefined /\
     fst (HslToRgb true from) = Undefined /\
     fst (LabToRgb true from) = Undefined /\
     fst (LuvToRgb true from) = Undefined).
Proof.
  intros T from.
  unfold HsvToRgb, HslToRgb, LabToRgb, LuvToRgb, assert, end_without_return.
  cbn [bind fst]. split; [|split].
  - repeat split.
  - intros to after. repeat split; discriminate.
  - repeat split.
Qed.

(** ** The delta offset and RGB to YCrCb *)

(** C1, as stated, fails: with 8-bit and 16-bit storage the offset is
    not 128 and 32768, and the 8-bit gray pixel (128,128,128) is not
    mapped to (128,128,128). *)
Lemma delta_gray_pixel_not_128 :
  delta Byte1 <> 128%Z /\
  delta Byte2 <> 32768%Z /\
  RgbToYCrCb Byte1 (mkColor 128 128 128)%Z <> Ok (mkColor 128 128 128)%Z.
Proof.
  repeat split; vm_compute; discriminate.
Qed.

(** C1, amended: the offset that RgbToYCrCb adds to the two chroma
    channels and that YCrCbToRgb subtracts from them is [opaque() / 2]
    evaluated in the channel type, for every storage type; it is 0.5 for
    floating-point storage.  With 8-bit storage the gray pixel
    (128,128,128) is mapped to Y = 127, the luminance sum being
    127.99999999999999 in double and the cast truncating, and to
    Cr = Cb = delta, the chroma terms being lost in the truncation. *)
Theorem delta_half_opaque_gray_pixel :
  (forall (T A : Type) (AR : Arith A) (CH : Channel T A) (from : Color T),
      RgbToYCrCb CH from
      = (Y <- RgbToGray CH from ;;
         Cr <- static_cast (add (mul (diff (c0 from) Y) (lit (713 # 1000)))
                                (widen (halve opaque))) ;;
         Cb <- static_cast (add (mul (diff (c2 from) Y) (lit (564 # 1000)))
                                (widen (halve opaque))) ;;
         Ok (mkColor Y Cr Cb)) /\
      YCrCbToRgb CH from
      = (R <- static_cast (add (widen (c0 from))
                               (mul (lit (1403 # 1000)) (diff (c1 from) (halve opaque)))) ;;
         G <- static_cast (sub (sub (widen (c0 from))
                                    (mul (lit (714 # 1000)) (diff (c1 from) (halve opaque))))
                               (mul (lit (344 # 1000)) (diff (c2 from) (halve opaque)))) ;;
         B <- static_cast (add (widen (c0 from))
                               (mul (lit (1773 # 1000)) (diff (c2 from) (halve opaque)))) ;;
         Ok (mkColor R G B))) /\
  (forall R G B : float,
      RgbToYCrCb Float8 (mkColor R G B)
      = Ok (mkColor (0.299 * R + 0.587 * G + 0.114 * B)
                    ((R - (0.299 * R + 0.587 * G + 0.114 * B)) * 0.713 + 0.5)
                    ((B - (0.299 * R + 0.587 * G + 0.114 * B)) * 0.564 + 0.5))%float) /\
  (forall Y Cr Cb : float,
      YCrCbToRgb Float8 (mkColor Y Cr Cb)
      = Ok (mkColor (Y + 1.403 * (Cr - 0.5))
                    (Y - 0.714 * (Cr - 0.5) - 0.344 * (Cb - 0.5))
                    (Y + 1.773 * (Cb - 0.5)))%float) /\
  (0.299 * 128 + 0.587 * 128 + 0.114 * 128)%float = 127.99999999999999%float /\
  RgbToYCrCb Byte1 (mkColor 128 128 128)%Z
  = Ok (mkColor 127%Z (delta Byte1) (delta Byte1)).
Proof.
  split; [intros T A AR CH from; split; reflexivity|].
  split; [intros R G B; reflexivity|].
  split; [intros Y Cr Cb; reflexivity|].
  split; vm_compute; reflexivity.
Qed.

(** ** Degenerate pixels *)

(** C4: in double storage RgbToHsv maps pure red to (0,1,1) and pure
    green to (120,1,1); on black its hue is 0/0, a NaN, and so are the
    hue and saturation of RgbToHsl on white and the u and v of RgbToLuv
    on black (whatever [pow] is).  With 8-bit storage the cast of the
    NaN hue is undefined. *)
Theorem degenerate_pixels_give_nan :
  RgbToHsv Float8 (mkColor 1 0 0)%float = Ok (mkColor 0 1 1)%float /\
  RgbToHsv Float8 (mkColor 0 1 0)%float = Ok (mkColor 120 1 1)%float /\
  (exists H : float,
      RgbToHsv Float8 (mkColor 0 0 0)%float = Ok (mkColor H 0 0)%float /\
      PrimFloat.is_nan H = true) /\
  (exists H S : float,
      RgbToHsl Float8 (mkColor 1 1 1)%float = Ok (mkColor H S 1)%float /\
      PrimFloat.is_nan H = true /\ PrimFloat.is_nan S = true) /\
  (forall pow : float -> float -> float,
      exists u v : float,
        RgbToLuv Float8 pow (mkColor 0 0 0)%float = Ok (mkColor 0 u v)%float /\
        PrimFloat.is_nan u = true /\ PrimFloat.is_nan v = true) /\
  RgbToHsv Byte1 (mkColor 0 0 0)%Z = Undefined.
Proof.
  split; [vm_compute; reflexivity|].
  split; [vm_compute; reflexivity|].
  split; [exists PrimFloat.nan; split; vm_compute; reflexivity|].
  split; [exists PrimFloat.nan, PrimFloat.nan; repeat split; vm_compute; reflexivity|].
  split; [|vm_compute; reflexivity].
  intros pow. exists PrimFloat.nan, PrimFloat.nan.
  repeat split; vm_compute; reflexivity.
Qed.

(** ** YCrCb to RGB *)

Lemma forall_bits_spec (n : nat) :
  forall P : Z -> bool,
    forall_bits n P = true ->
    forall z : Z, (0 <= z < 2 ^ Z.of_nat n)%Z -> P z = true.
Proof.
  induction n as [|k IH]; intros P Hall z Hz.
  - simpl in Hall. change (2 ^ Z.of_nat 0)%Z with 1%Z in Hz.
    replace z with 0%Z by lia. exact Hall.
  - simpl in Hall. apply andb_prop in Hall. destruct Hall as [He Ho].
    rewrite Nat2Z.inj_succ, Z.pow_succ_r in Hz by lia.
    destruct (Z.even z) eqn:Ev.
    + apply Z.even_spec in Ev. destruct Ev as [h ->].
      apply (IH _ He h). lia.
    + assert (Od : Z.odd z = true) by (rewrite <- Z.negb_even, Ev; reflexivity).
      apply Z.odd_spec in Od. destruct Od as [h ->].
      apply (IH _ Ho h). lia.
Qed.

Lemma diff_delta_Byte1 (z : Z) :
  in_range 8 z ->
  diff (Channel := Byte1) z (delta Byte1)
  = sub (widen (Channel := Byte1) z) (widen (Channel := Byte1) (delta Byte1)).
Proof.
  intros Hz. apply FloatAxioms.Leibniz.eqb_spec.
  apply (forall_bits_spec 8 (diff_delta_exact 8)); [vm_compute; reflexivity|].
  exact Hz.
Qed.

Lemma diff_delta_Byte2 (z : Z) :
  in_range 16 z ->
  diff (Channel := Byte2) z (delta Byte2)
  = sub (widen (Channel := Byte2) z) (widen (Channel := Byte2) (delta Byte2)).
Proof.
  intros Hz. apply FloatAxioms.Leibniz.eqb_spec.
  apply (forall_bits_spec 16 (diff_delta_exact 16)); [vm_compute; reflexivity|].
  exact Hz.
Qed.

(** C2: YCrCbToRgb computes R = Y + 1.403 (Cr - delta),
    G = Y - 0.714 (Cr - delta) - 0.344 (Cb - delta) and
    B = Y + 1.773 (Cb - delta), each cast to the channel type: for
    double storage on every pixel, for 8-bit and 16-bit storage on
    every pixel whose chroma channels are in the range of the type
    (where the integer subtraction of the source and the subtraction
    of the converted doubles agree).  The ordering with the two G
    coefficients exchanged gives another result. *)
Theorem YCrCbToRgb_formula :
  (forall Y Cr Cb : float,
      YCrCbToRgb Float8 (mkColor Y Cr Cb)
      = Ok (mkColor (Y + 1.403 * (Cr - 0.5))
                    (Y - 0.714 * (Cr - 0.5) - 0.344 * (Cb - 0.5))
                    (Y + 1.773 * (Cb - 0.5)))%float) /\
  (forall Y Cr Cb : Z,
      in_range 8 Cr -> in_range 8 Cb ->
      let d := B64.of_Z (delta Byte1) in
      let y := B64.of_Z Y in
      let cr := B64.of_Z Cr in
      let cb := B64.of_Z Cb in
      YCrCbToRgb Byte1 (mkColor Y Cr Cb)
      = To Byte1 (y + 1.403 * (cr - d))%float
                 (y - 0.714 * (cr - d) - 0.344 * (cb - d))%float
                 (y + 1.773 * (cb - d))%float) /\
  (forall Y Cr Cb : Z,
      in_range 16 Cr -> in_range 16 Cb ->
      let d := B64.of_Z (delta Byte2) in
      let y := B64.of_Z Y in
      let cr := B64.of_Z Cr in
      let cb := B64.of_Z Cb in
      YCrCbToRgb Byte2 (mkColor Y Cr Cb)
      = To Byte2 (y + 1.403 * (cr - d))%float
                 (y - 0.714 * (cr - d) - 0.344 * (cb - d))%float
                 (y + 1.773 * (cb - d))%float) /\
  YCrCbToRgb Float8 (mkColor 0.5 0.75 0.25)%float
  <> narrow Float8 (rgb_of_ycrcb_swapped (delta Float8) (mkColor 0.5 0.75 0.25)%float).
Proof.
  split; [reflexivity|].
  split; [|split].
  - intros Y Cr Cb HCr HCb d y cr cb.
    unfold YCrCbToRgb, To. cbn [c0 c1 c2].
    rewrite (diff_delta_Byte1 HCr), (diff_delta_Byte1 HCb). reflexivity.
  - intros Y Cr Cb HCr HCb d y cr cb.
    unfold YCrCbToRgb, To. cbn [c0 c1 c2].
    rewrite (diff_delta_Byte2 HCr), (diff_delta_Byte2 HCb). reflexivity.
  - vm_compute. discriminate.
Qed.

Lemma YCrCbToRgb_formula_witness :
  YCrCbToRgb Byte1 (mkColor 100 150 90)%Z
  = To Byte1 (B64.of_Z 100 + 1.403 * (B64.of_Z 150 - B64.of_Z (delta Byte1)))%float
             (B64.of_Z 100 - 0.714 * (B64.of_Z 150 - B64.of_Z (delta Byte1))
              - 0.344 * (B64.of_Z 90 - B64.of_Z (delta Byte1)))%float
             (B64.of_Z 100 + 1.773 * (B64.of_Z 90 - B64.of_Z (delta Byte1)))%float.
Proof.
  apply (proj1 (proj2 YCrCbToRgb_formula) 100 150 90)%Z; unfold in_range; lia.
Defined.

(** ** HSV and HSL *)


(** ** Lab and Luv lightness *)

(** C6: RgbToLab computes no lightness: [operator()] declares X and Z
    as references to const and then divides them in place, so it cannot
    be instantiated, for any storage type.  What its body writes for L
    is what the claim says: with the two references modifiable, the
    first channel cast is 116 Y^(1/3), without the offset of 16, for
    Y > 0.008856 and 903.3 Y otherwise, Y being the second XYZ
    coordinate of the widened pixel.  The first channel RgbToLuv casts
    is 116 Y^(1/3) - 16 for Y > 0.008856 and 903.3 Y otherwise. *)
Theorem lab_luv_lightness :
  forall (T A : Type) (AR : Arith A) (CH : Channel T A) (pow : A -> A -> A),
    RgbToLab CH pow = IllFormed /\
    (exists f : Color T -> outcome (Color T),
        RgbToLab_operator CH pow RefToMutable RefToMutable = Instantiated f /\
        forall from : Color T,
          let Y := c1 (xyz_ext (map_color DefaultConverter from)) in
          exists a b : A,
            f from
            = To CH (if ltb (lit (8856 # 1000000)) Y
                     then mul (lit 116) (pow Y (div (lit 1) (lit 3)))
                     else mul (lit (9033 # 10)) Y) a b) /\
    (forall from : Color T,
        let Y := c1 (xyz_ext (map_color DefaultConverter from)) in
        exists u v : A,
          RgbToLuv CH pow from
          = To CH (if ltb (lit (8856 # 1000000)) Y
                   then sub (mul (lit 116) (pow Y (div (lit 1) (lit 3)))) (lit 16)
                   else mul (lit (9033 # 10)) Y) u v).
Proof.
  intros T A AR CH pow. split; [reflexivity|]. split.
  - eexists. split; [reflexivity|].
    intros from Y. unfold RgbToXyz.
    cbn [To Ext static_cast widen bind c0 c1 c2 map_color].
    eexists. eexists. reflexivity.
  - intros from Y. unfold RgbToLuv, RgbToXyz.
    cbn [To Ext static_cast widen bind c0 c1 c2 map_color].
    eexists. eexists. reflexivity.
Qed.

(** ** Narrowing once *)

Lemma diff_exact_Byte1 (a b : Z) :
  in_range 8 a -> in_range 8 b ->
  diff (Channel := Byte1) a b
  = sub (widen (Channel := Byte1) a) (widen (Channel := Byte1) b).
Proof.
  intros Ha Hb. apply FloatAxioms.Leibniz.eqb_spec.
  change (diff_exact 8 a b = true).
  apply (forall_bits_spec 8 (fun x => diff_exact 8 x b)); [|exact Ha].
  apply (forall_bits_spec 8 (fun y => forall_bits 8 (fun x => diff_exact 8 x y)));
    [vm_compute; reflexivity|exact Hb].
Qed.

Lemma int_cast_in_range (w : Z) (x : float) (z : Z) :
  int_cast w x = Ok z -> in_range w z.
Proof.
  unfold int_cast, in_range. destruct (B64.trunc x) as [t|]; [|discriminate].
  destruct ((0 <=? t)%Z && (t <? 2 ^ w)%Z) eqn:E; [|discriminate].
  intros [= <-]. apply andb_prop in E. lia.
Qed.

(** C9, as stated, fails on the two YCrCb converters with integer
    storage.  On the 8-bit pixel (3,0,0) RgbToYCrCb returns Cr = 129
    and Cb = 127 where the reference, which computes every channel from
    the widened input and narrows once, has 128 and 126, with the
    offset of the design (127.5) and with the offset of the source
    (127) alike: Y has been narrowed to 0 before it is used.  On the
    8-bit pixel (100,150,90) YCrCbToRgb returns (132,96,34) where the
    reference has (131,96,33). *)
Lemma RgbToYCrCb_is_not_narrow_once :
  RgbToYCrCb Byte1 (mkColor 3 0 0)%Z = Ok (mkColor 0 129 127)%Z /\
  narrow_once Byte1 (ycrcb_ext (delta_ext Byte1)) (mkColor 3 0 0)%Z
  = Ok (mkColor 0 128 126)%Z /\
  narrow_once Byte1 (ycrcb_ext (delta_widened Byte1)) (mkColor 3 0 0)%Z
  = Ok (mkColor 0 128 126)%Z /\
  RgbToYCrCb Byte1 (mkColor 3 0 0)%Z
  <> narrow_once Byte1 (ycrcb_ext (delta_ext Byte1)) (mkColor 3 0 0)%Z /\
  YCrCbToRgb Byte1 (mkColor 100 150 90)%Z = Ok (mkColor 132 96 34)%Z /\
  narrow_once Byte1 (rgb_of_ycrcb_ext (delta_ext Byte1)) (mkColor 100 150 90)%Z
  = Ok (mkColor 131 96 33)%Z /\
  YCrCbToRgb Byte1 (mkColor 100 150 90)%Z
  <> narrow_once Byte1 (rgb_of_ycrcb_ext (delta_ext Byte1)) (mkColor 100 150 90)%Z.
Proof.
  repeat split; vm_compute; try reflexivity; discriminate.
Qed.

(** C9, amended: RgbToGray, RgbToXyz, XyzToRgb, RgbToHsv, RgbToHsl and
    RgbToLuv are, for every storage type and pixel, equal to the
    reference that widens the pixel, evaluates the formula in extended
    precision and narrows each result channel once; so are RgbToYCrCb
    and YCrCbToRgb with double storage.  With integer storage the two
    YCrCb converters take the offset [opaque() / 2] in the channel
    type: YCrCbToRgb is the reference taken with that offset (8-bit and
    16-bit storage, chroma channels in range), and RgbToYCrCb narrows Y
    first, being RgbToGray's result, and computes Cr and Cb from the
    narrowed Y and that offset (8-bit storage, channels in range).
    RgbToLab cannot be instantiated and narrows nothing. *)
Theorem converters_narrow_once :
  (forall (T A : Type) (AR : Arith A) (CH : Channel T A) (from : Color T),
      RgbToGray CH from = static_cast (gray_ext (map_color widen from)) /\
      RgbToXyz CH from = narrow_once CH xyz_ext from /\
      XyzToRgb CH from = narrow_once CH rgb_of_xyz_ext from /\
      RgbToHsv CH from = narrow_once_tmp CH hsv_ext from /\
      RgbToHsl CH from = narrow_once_tmp CH hsl_ext from /\
      (forall pow, RgbToLuv CH pow from = narrow_once_tmp CH (luv_ext pow) from) /\
      (forall pow, RgbToLab CH pow = IllFormed)) /\
  (forall from : Color float,
      YCrCbToRgb Float8 from
      = narrow_once Float8 (rgb_of_ycrcb_ext (delta_ext Float8)) from /\
      RgbToYCrCb Float8 from
      = narrow_once Float8 (ycrcb_ext (delta_ext Float8)) from) /\
  (forall from : Color Z,
      in_range 8 (c0 from) -> in_range 8 (c1 from) -> in_range 8 (c2 from) ->
      YCrCbToRgb Byte1 from
      = narrow_once Byte1 (rgb_of_ycrcb_ext (delta_widened Byte1)) from /\
      RgbToYCrCb Byte1 from = ycrcb_narrowed_Y Byte1 from) /\
  (forall from : Color Z,
      in_range 16 (c1 from) -> in_range 16 (c2 from) ->
      YCrCbToRgb Byte2 from
      = narrow_once Byte2 (rgb_of_ycrcb_ext (delta_widened Byte2)) from).
Proof.
  split; [|split; [|split]].
  - intros T A AR CH from.
    split; [reflexivity|]. split; [reflexivity|]. split; [reflexivity|].
    split.
    { unfold RgbToHsv, narrow_once_tmp, hsv_ext, hue, max3, min3, narrow, To.
      cbn [c0 c1 c2]. destruct (eqb _ (lit 0)); reflexivity. }
    split; [reflexivity|].
    split; [intros pow; reflexivity|].
    intros pow; reflexivity.
  - intros from. split; reflexivity.
  - intros [Y Cr Cb]. cbn [c0 c1 c2]. intros HY HCr HCb. split.
    + unfold YCrCbToRgb, narrow_once, narrow, rgb_of_ycrcb_ext, delta_widened.
      cbn [c0 c1 c2 map_color].
      rewrite (diff_delta_Byte1 HCr), (diff_delta_Byte1 HCb). reflexivity.
    + unfold RgbToYCrCb, ycrcb_narrowed_Y, RgbToGray, gray_ext. cbn [c0 c1 c2 map_color].
      destruct (static_cast _) as [y| |] eqn:Ey; cbn [bind]; try reflexivity.
      apply int_cast_in_range in Ey.
      rewrite (diff_exact_Byte1 HY Ey), (diff_exact_Byte1 HCb Ey). reflexivity.
  - intros [Y Cr Cb]. cbn [c0 c1 c2]. intros HCr HCb.
    unfold YCrCbToRgb, narrow_once, narrow, rgb_of_ycrcb_ext, delta_widened.
    cbn [c0 c1 c2 map_color].
    rewrite (diff_delta_Byte2 HCr), (diff_delta_Byte2 HCb). reflexivity.
Qed.

Lemma converters_narrow_once_witness :
  YCrCbToRgb Byte1 (mkColor 100 150 90)%Z
  = narrow_once Byte1 (rgb_of_ycrcb_ext (delta_widened Byte1)) (mkColor 100 150 90)%Z /\
  RgbToYCrCb Byte1 (mkColor 100 150 90)%Z = ycrcb_narrowed_Y Byte1 (mkColor 100 150 90)%Z.
Proof.
  apply (proj1 (proj2 (proj2 converters_narrow_once)) (mkColor 100 150 90)%Z);
    unfold in_range; cbn [c0 c1 c2]; lia.
Defined.

(** ** The channel-count guard *)

(** C10: for each of the thirteen converters, the declaration selected
    for a pixel type with two channels is the one for [Color<T, 2>],
    which has no body, so the instantiation does not build; with three
    channels each converter builds. *)
Theorem two_channels_do_not_build :
  forall c : converter,
    select (declarations c) (ColorOf 2) = Some (mkDecl TwoChannels false) /\
    instantiate c (ColorOf 2) = IncompleteType /\
    instantiate c (ColorOf 3) = Compiles.
Proof.
  intros c. destruct c; repeat split.
Qed.

(** ** The RGB/XYZ round trip *)

Section RoundTrip.

Local Open Scope R_scope.

Lemma Rabs_bound (a b : R) : Rabs a <= b -> - b <= a <= b.
Proof.
  intros H. pose proof (Rle_abs a). pose proof (Rle_abs (- a)) as H'.
  rewrite Rabs_Ropp in H'. lra.
Qed.

Section Analysis.
Variable rnd : R -> R.
Hypothesis Hrnd : standard_model rnd.

Lemma rnd_approx x x0 e M :
  0 <= e -> approx x x0 e -> bounded x0 M -> approx (rnd x) x0 (E_rnd M e).
Proof.
  unfold approx, bounded, E_rnd. intros He Hx HM.
  pose proof (Hrnd x) as H.
  assert (Hax : Rabs x <= M + e) by (apply Rabs_le; lra).
  apply Rabs_bound in H.
  assert (unit_roundoff * Rabs x <= (M + e) * unit_roundoff).
  { unfold unit_roundoff. lra. }
  lra.
Qed.

Lemma mul_approx a a0 ea Ma b b0 eb Mb :
  0 <= ea -> 0 <= eb ->
  approx a a0 ea -> bounded a0 Ma -> approx b b0 eb -> bounded b0 Mb ->
  approx (a * b) (a0 * b0) (Ma * eb + Mb * ea + ea * eb) /\ bounded (a0 * b0) (Ma * Mb).
Proof.
  unfold approx, bounded. intros Hea Heb Ha HMa Hb HMb.
  split; split; nra.
Qed.

Lemma add_approx a a0 ea Ma b b0 eb Mb :
  approx a a0 ea -> bounded a0 Ma -> approx b b0 eb -> bounded b0 Mb ->
  approx (a + b) (a0 + b0) (ea + eb) /\ bounded (a0 + b0) (Ma + Mb).
Proof.
  unfold approx, bounded. intros. split; lra.
Qed.

Lemma E_rnd_nonneg M e : 0 <= M -> 0 <= e -> 0 <= E_rnd M e.
Proof.
  intros HM He. unfold E_rnd, unit_roundoff, underflow_unit.
  assert (0 <= (M + e) * / 16777216) by (apply Rmult_le_pos; lra).
  lra.
Qed.

Lemma term_approx (c : Q) C x x0 e M :
  0 <= e -> 0 <= M -> bounded (Q2R c) C -> approx x x0 e -> bounded x0 M ->
  approx (rnd (rnd (Q2R c) * x)) (Q2R c * x0) (E_term C M e)
  /\ bounded (Q2R c * x0) (C * M) /\ 0 <= E_term C M e.
Proof.
  intros He HM HC Hx Hx0.
  assert (C0 : 0 <= C) by (unfold bounded in HC; lra).
  assert (Hl : approx (rnd (Q2R c)) (Q2R c) (E_rnd C 0)).
  { apply rnd_approx; [lra| unfold approx; lra | exact HC]. }
  assert (El : 0 <= E_rnd C 0) by (apply E_rnd_nonneg; lra).
  destruct (mul_approx El He Hl HC Hx Hx0) as [Hp Hb].
  assert (Ep : 0 <= C * e + M * E_rnd C 0 + E_rnd C 0 * e).
  { assert (0 <= C * e) by (apply Rmult_le_pos; lra).
    assert (0 <= M * E_rnd C 0) by (apply Rmult_le_pos; lra).
    assert (0 <= E_rnd C 0 * e) by (apply Rmult_le_pos; lra). lra. }
  split; [|split].
  - unfold E_term. apply rnd_approx; assumption.
  - exact Hb.
  - unfold E_term. apply E_rnd_nonneg; [apply Rmult_le_pos|]; lra.
Qed.

Lemma dot_approx (c1 c2 c3 : Q) C1 C2 C3 x y z x0 y0 z0 M1 M2 M3 e1 e2 e3 :
  0 <= e1 -> 0 <= e2 -> 0 <= e3 -> 0 <= M1 -> 0 <= M2 -> 0 <= M3 ->
  bounded (Q2R c1) C1 -> bounded (Q2R c2) C2 -> bounded (Q2R c3) C3 ->
  approx x x0 e1 -> approx y y0 e2 -> approx z z0 e3 ->
  bounded x0 M1 -> bounded y0 M2 -> bounded z0 M3 ->
  approx (dot rnd c1 c2 c3 x y z) (Q2R c1 * x0 + Q2R c2 * y0 + Q2R c3 * z0)
         (E_dot C1 C2 C3 M1 M2 M3 e1 e2 e3).
Proof.
  intros He1 He2 He3 HM1 HM2 HM3 HC1 HC2 HC3 Hx Hy Hz Hx0 Hy0 Hz0.
  destruct (term_approx He1 HM1 HC1 Hx Hx0) as (T1 & B1 & P1).
  destruct (term_approx He2 HM2 HC2 Hy Hy0) as (T2 & B2 & P2).
  destruct (term_approx He3 HM3 HC3 Hz Hz0) as (T3 & B3 & P3).
  destruct (add_approx T1 B1 T2 B2) as [S12 B12].
  assert (R12 := rnd_approx (Rplus_le_le_0_compat _ _ P1 P2) S12 B12).
  assert (P12 : 0 <= E_rnd (C1 * M1 + C2 * M2) (E_term C1 M1 e1 + E_term C2 M2 e2)).
  { unfold bounded in *. apply E_rnd_nonneg; [|lra].
    assert (0 <= C1 * M1) by (apply Rmult_le_pos; lra).
    assert (0 <= C2 * M2) by (apply Rmult_le_pos; lra). lra. }
  destruct (add_approx R12 B12 T3 B3) as [S123 B123].
  unfold dot, E_dot. apply rnd_approx; [lra | exact S123 | exact B123].
Qed.

End Analysis.


Ltac lit_bound := unfold bounded, Q2R; cbn [Qnum Qden]; lra.

Lemma roundtrip_standard_model (rnd : R -> R) :
  standard_model rnd ->
  forall r g b : R, unit_range r -> unit_range g -> unit_range b ->
  exists r' g' b' : R,
    roundtrip (AR := R_arith rnd) (Real rnd) (mkColor r g b) = Ok (mkColor r' g' b') /\
    Rabs (r' - r) <= Q2R tolerance /\
    Rabs (g' - g) <= Q2R tolerance /\
    Rabs (b' - b) <= Q2R tolerance.
Proof.
  intros Hrnd r g b Hr Hg Hb. unfold unit_range in *.
  set (X := dot rnd (412453 # 1000000) (357580 # 1000000) (180423 # 1000000) r g b).
  set (Y := dot rnd (212671 # 1000000) (715160 # 1000000) (72169 # 1000000) r g b).
  set (Z := dot rnd (19334 # 1000000) (119193 # 1000000) (950227 # 1000000) r g b).
  exists (dot rnd (3240479 # 1000000) (-153715 # 100000) (-498535 # 1000000) X Y Z),
         (dot rnd (-969256 # 1000000) (1875991 # 1000000) (41556 # 1000000) X Y Z),
         (dot rnd (55648 # 1000000) (-204043 # 1000000) (1057311 # 1000000) X Y Z).
  split; [reflexivity|].
  assert (A0 : forall x, approx x x 0) by (intros x; unfold approx; lra).
  assert (B1 : forall x, 0 <= x <= 1 -> bounded x 1) by (intros x Hx; unfold bounded; lra).
  assert (HX := @dot_approx rnd Hrnd (412453 # 1000000) (357580 # 1000000) (180423 # 1000000)
                  (412453 / 1000000) (357580 / 1000000) (180423 / 1000000)
                  r g b r g b 1 1 1 0 0 0).
  fold X in HX.
  specialize (HX ltac:(lra) ltac:(lra) ltac:(lra) ltac:(lra) ltac:(lra) ltac:(lra)
                 ltac:(lit_bound) ltac:(lit_bound) ltac:(lit_bound)
                 (A0 r) (A0 g) (A0 b) (B1 r Hr) (B1 g Hg) (B1 b Hb)).
  assert (HY := @dot_approx rnd Hrnd (212671 # 1000000) (715160 # 1000000) (72169 # 1000000)
                  (212671 / 1000000) (715160 / 1000000) (72169 / 1000000)
                  r g b r g b 1 1 1 0 0 0).
  fold Y in HY.
  specialize (HY ltac:(lra) ltac:(lra) ltac:(lra) ltac:(lra) ltac:(lra) ltac:(lra)
                 ltac:(lit_bound) ltac:(lit_bound) ltac:(lit_bound)
                 (A0 r) (A0 g) (A0 b) (B1 r Hr) (B1 g Hg) (B1 b Hb)).
  assert (HZ := @dot_approx rnd Hrnd (19334 # 1000000) (119193 # 1000000) (950227 # 1000000)
                  (19334 / 1000000) (119193 / 1000000) (950227 / 1000000)
                  r g b r g b 1 1 1 0 0 0).
  fold Z in HZ.
  specialize (HZ ltac:(lra) ltac:(lra) ltac:(lra) ltac:(lra) ltac:(lra) ltac:(lra)
                 ltac:(lit_bound) ltac:(lit_bound) ltac:(lit_bound)
                 (A0 r) (A0 g) (A0 b) (B1 r Hr) (B1 g Hg) (B1 b Hb)).
  clearbody X Y Z.
  set (X0 := Q2R (412453 # 1000000) * r + Q2R (357580 # 1000000) * g + Q2R (180423 # 1000000) * b) in *.
  set (Y0 := Q2R (212671 # 1000000) * r + Q2R (715160 # 1000000) * g + Q2R (72169 # 1000000) * b) in *.
  set (Z0 := Q2R (19334 # 1000000) * r + Q2R (119193 # 1000000) * g + Q2R (950227 # 1000000) * b) in *.
  assert (BX : bounded X0 (950456 / 1000000)) by (subst X0; unfold bounded, Q2R; cbn [Qnum Qden]; lra).
  assert (BY : bounded Y0 1) by (subst Y0; unfold bounded, Q2R; cbn [Qnum Qden]; lra).
  assert (BZ : bounded Z0 (1088754 / 1000000)) by (subst Z0; unfold bounded, Q2R; cbn [Qnum Qden]; lra).
  set (ex := E_dot (412453 / 1000000) (357580 / 1000000) (180423 / 1000000) 1 1 1 0 0 0) in *.
  set (ey := E_dot (212671 / 1000000) (715160 / 1000000) (72169 / 1000000) 1 1 1 0 0 0) in *.
  set (ez := E_dot (19334 / 1000000) (119193 / 1000000) (950227 / 1000000) 1 1 1 0 0 0) in *.
  assert (Hex : 0 <= ex <= 3 / 10000000).
  { subst ex. unfold E_dot, E_term, E_rnd, unit_roundoff, underflow_unit. lra. }
  assert (Hey : 0 <= ey <= 3 / 10000000).
  { subst ey. unfold E_dot, E_term, E_rnd, unit_roundoff, underflow_unit. lra. }
  assert (Hez : 0 <= ez <= 3 / 10000000).
  { subst ez. unfold E_dot, E_term, E_rnd, unit_roundoff, underflow_unit. lra. }
  assert (W : forall x x0 e e', approx x x0 e -> e <= e' -> approx x x0 e')
    by (unfold approx; intros; lra).
  assert (HX' := W _ _ _ _ HX (proj2 Hex)).
  assert (HY' := W _ _ _ _ HY (proj2 Hey)).
  assert (HZ' := W _ _ _ _ HZ (proj2 Hez)).
  clear HX HY HZ Hex Hey Hez. clearbody ex ey ez.
  assert (Fin : forall (c1 c2 c3 : Q) (C1 C2 C3 t : R),
             bounded (Q2R c1) C1 -> bounded (Q2R c2) C2 -> bounded (Q2R c3) C3 ->
             E_dot C1 C2 C3 (950456 / 1000000) 1 (1088754 / 1000000)
                   (3 / 10000000) (3 / 10000000) (3 / 10000000) <= 5 / 1000000 ->
             - (4 / 1000000) <= Q2R c1 * X0 + Q2R c2 * Y0 + Q2R c3 * Z0 - t <= 4 / 1000000 ->
             Rabs (dot rnd c1 c2 c3 X Y Z - t) <= Q2R tolerance).
  { intros c1 c2 c3 C1 C2 C3 t H1 H2 H3 HE HT.
    assert (D := @dot_approx rnd Hrnd c1 c2 c3 C1 C2 C3 X Y Z X0 Y0 Z0
                   (950456 / 1000000) 1 (1088754 / 1000000)
                   (3 / 10000000) (3 / 10000000) (3 / 10000000)
                   ltac:(lra) ltac:(lra) ltac:(lra) ltac:(lra) ltac:(lra) ltac:(lra)
                   H1 H2 H3 HX' HY' HZ' BX BY BZ).
    unfold approx in D. apply Rabs_le.
    unfold tolerance, Q2R; cbn [Qnum Qden]. lra. }
  split; [|split].
  - apply Fin with (C1 := 3240479 / 1000000) (C2 := 153715 / 100000) (C3 := 498535 / 1000000);
      try lit_bound.
    + unfold E_dot, E_term, E_rnd, unit_roundoff, underflow_unit. lra.
    + subst X0 Y0 Z0. unfold Q2R; cbn [Qnum Qden]. lra.
  - apply Fin with (C1 := 969256 / 1000000) (C2 := 1875991 / 1000000) (C3 := 41556 / 1000000);
      try lit_bound.
    + unfold E_dot, E_term, E_rnd, unit_roundoff, underflow_unit. lra.
    + subst X0 Y0 Z0. unfold Q2R; cbn [Qnum Qden]. lra.
  - apply Fin with (C1 := 55648 / 1000000) (C2 := 204043 / 1000000) (C3 := 1057311 / 1000000);
      try lit_bound.
    + unfold E_dot, E_term, E_rnd, unit_roundoff, underflow_unit. lra.
    + subst X0 Y0 Z0. unfold Q2R; cbn [Qnum Qden]. lra.
Qed.

End RoundTrip.

Lemma roundtrip_grid :
  forallb roundtrip_close grid = true.
Proof. vm_compute. reflexivity. Qed.

(** C8: in floating-point storage RgbToXyz followed by XyzToRgb returns
    every pixel with channels in 0..1 within 1/100000 of itself, channel
    by channel: in any arithmetic that rounds each literal and each
    operation within the standard model (relative error at most 2^-24,
    absolute error at most 2^-100), exact arithmetic included, where
    the product of the two matrices is the identity to within 2/1000000;
    and in binary64 on the 729 pixels whose channels are multiples of
    1/8. *)
Theorem xyz_roundtrip_tolerance :
  (forall rnd : R -> R,
      standard_model rnd ->
      forall r g b : R, unit_range r -> unit_range g -> unit_range b ->
      exists r' g' b' : R,
        roundtrip (AR := R_arith rnd) (Real rnd) (mkColor r g b) = Ok (mkColor r' g' b') /\
        (Rabs (r' - r) <= Q2R tolerance)%R /\
        (Rabs (g' - g) <= Q2R tolerance)%R /\
        (Rabs (b' - b) <= Q2R tolerance)%R) /\
  (forall p : Color float,
      In p grid ->
      exists q : Color float,
        roundtrip Float8 p = Ok q /\ close_color q p = true).
Proof.
  split.
  - exact roundtrip_standard_model.
  - intros p Hp.
    pose proof (proj1 (forallb_forall roundtrip_close grid) roundtrip_grid p Hp) as H.
    unfold roundtrip_close in H.
    destruct (roundtrip Float8 p) as [q| |]; try discriminate.
    exists q. split; [reflexivity|exact H].
Qed.

Lemma xyz_roundtrip_tolerance_witness :
  exists r' g' b' : R,
    roundtrip (AR := R_arith inflate) (Real inflate) (mkColor (1 / 2) (1 / 4) 1)%R
    = Ok (mkColor r' g' b') /\
    (Rabs (r' - 1 / 2) <= Q2R tolerance)%R /\
    (Rabs (g' - 1 / 4) <= Q2R tolerance)%R /\
    (Rabs (b' - 1) <= Q2R tolerance)%R.
Proof.
  apply (proj1 xyz_roundtrip_tolerance inflate).
  - intros x. unfold inflate, unit_roundoff, underflow_unit.
    replace (x + x / 16777216 - x)%R with (x * / 16777216)%R by lra.
    rewrite Rabs_mult, (Rabs_pos_eq (/ 16777216)) by lra. lra.
  - unfold unit_range. lra.
  - unfold unit_range. lra.
  - unfold unit_range. lra.
Defined.

(** * Further properties of the converters *)

(** ** Gray pixels with 8-bit storage *)

Lemma color_eqb_eq (p q : Color Z) : color_eqb p q = true -> p = q.
Proof.
  destruct p as [a b c], q as [a' b' c']. unfold color_eqb. cbn [c0 c1 c2].
  intros H. apply andb_prop in H. destruct H as [H Hc].
  apply andb_prop in H. destruct H as [Ha Hb].
  apply Z.eqb_eq in Ha, Hb, Hc. subst. reflexivity.
Qed.

Lemma outcome_eqb_eq (a b : outcome (Color Z)) :
  outcome_eqb color_eqb a b = true -> a = b.
Proof.
  destruct a, b; cbn [outcome_eqb]; intros H; try discriminate; try reflexivity.
  apply color_eqb_eq in H. subst. reflexivity.
Qed.

Lemma is_undefined_eq (X : Type) (a : outcome X) : is_undefined a = true -> a = Undefined.
Proof. destruct a; cbn; intros H; try discriminate; reflexivity. Qed.

Lemma gray_chroma_Byte1 (v : Z) :
  in_range 8 v ->
  RgbToYCrCb Byte1 (gray_pixel v)
  = (y <- RgbToGray Byte1 (gray_pixel v) ;; Ok (mkColor y (delta Byte1) (delta Byte1))).
Proof.
  intros Hv. apply outcome_eqb_eq.
  apply (forall_bits_spec 8 gray_chroma_is_delta); [vm_compute; reflexivity|exact Hv].
Qed.

Lemma neutral_chroma_Byte1 (y : Z) :
  in_range 8 y ->
  YCrCbToRgb Byte1 (mkColor y (delta Byte1) (delta Byte1)) = Ok (gray_pixel y).
Proof.
  intros Hy. apply outcome_eqb_eq.
  apply (forall_bits_spec 8 neutral_chroma_is_gray); [vm_compute; reflexivity|exact Hy].
Qed.

Lemma gray_level_Byte1 (v : Z) :
  in_range 8 v ->
  exists y : Z, RgbToGray Byte1 (gray_pixel v) = Ok y /\ (y = v \/ y = v - 1)%Z.
Proof.
  intros Hv.
  pose proof (forall_bits_spec 8 gray_level_kept ltac:(vm_compute; reflexivity) Hv) as H.
  unfold gray_level_kept in H.
  destruct (RgbToGray Byte1 (gray_pixel v)) as [y| |]; try discriminate.
  exists y. split; [reflexivity|].
  apply orb_prop in H. destruct H as [H|H]; apply Z.eqb_eq in H; [left|right]; exact H.
Qed.

(** X1: with 8-bit storage the luminance of every gray pixel (v,v,v) is
    defined and is v or v - 1, never more than one level darker and
    never brighter; both cases occur: level 1 becomes 0 and level 3
    stays 3. *)
Theorem gray_luminance_within_one :
  forall v : Z,
    in_range 8 v ->
    (exists y : Z,
        RgbToGray Byte1 (gray_pixel v) = Ok y /\ (y = v \/ y = v - 1)%Z) /\
    RgbToGray Byte1 (gray_pixel 1%Z) = Ok 0%Z /\
    RgbToGray Byte1 (gray_pixel 3%Z) = Ok 3%Z.
Proof.
  intros v Hv. split; [exact (gray_level_Byte1 Hv)|].
  split; vm_compute; reflexivity.
Qed.

Lemma gray_luminance_within_one_witness :
  (exists y : Z,
      RgbToGray Byte1 (gray_pixel 200%Z) = Ok y /\ (y = 200 \/ y = 200 - 1)%Z) /\
  RgbToGray Byte1 (gray_pixel 1%Z) = Ok 0%Z /\
  RgbToGray Byte1 (gray_pixel 3%Z) = Ok 3%Z.
Proof.
  apply (gray_luminance_within_one (v := 200%Z)). unfold in_range. lia.
Defined.

(** X2: with 8-bit storage RgbToYCrCb maps every gray pixel (v,v,v) to
    its luminance and to Cr = Cb = delta: the chroma of an achromatic
    pixel is the offset, whatever the level, also where the luminance
    was truncated to v - 1. *)
Theorem gray_has_neutral_chroma :
  forall v : Z,
    in_range 8 v ->
    exists y : Z,
      RgbToGray Byte1 (gray_pixel v) = Ok y /\
      RgbToYCrCb Byte1 (gray_pixel v) = Ok (mkColor y (delta Byte1) (delta Byte1)).
Proof.
  intros v Hv. destruct (gray_level_Byte1 Hv) as (y & Ey & _).
  exists y. split; [exact Ey|].
  rewrite (gray_chroma_Byte1 Hv), Ey. reflexivity.
Qed.

Lemma gray_has_neutral_chroma_witness :
  exists y : Z,
    RgbToGray Byte1 (gray_pixel 128%Z) = Ok y /\
    RgbToYCrCb Byte1 (gray_pixel 128%Z) = Ok (mkColor y (delta Byte1) (delta Byte1)).
Proof.
  apply (gray_has_neutral_chroma (v := 128%Z)). unfold in_range. lia.
Defined.

(** ** Neutral chroma *)

Lemma add_zero_r (x : float) :
  x <> PrimFloat.neg_zero -> (x + 0)%float = x.
Proof.
  intros Hx. apply Prim2SF_inj. rewrite FloatAxioms.add_spec.
  change (Prim2SF 0%float) with (S754_zero false).
  destruct (Prim2SF x) as [s|s| |s m e] eqn:E; try reflexivity.
  destruct s; [|reflexivity].
  exfalso. apply Hx. apply Prim2SF_inj. rewrite E. reflexivity.
Qed.

Lemma sub_zero_r (x : float) : (x - 0)%float = x.
Proof.
  apply Prim2SF_inj. rewrite FloatAxioms.sub_spec.
  change (Prim2SF 0%float) with (S754_zero false).
  destruct (Prim2SF x) as [s|s| |s m e]; try reflexivity.
  destruct s; reflexivity.
Qed.

(** X3: YCrCbToRgb decodes a pixel whose two chroma channels are at the
    offset to the gray pixel of its luminance: with 8-bit storage for
    every luminance of the range, with double storage for every
    luminance other than the negative zero, NaN and the infinities
    included. *)
Theorem neutral_chroma_decodes_to_gray :
  (forall y : Z,
      in_range 8 y ->
      YCrCbToRgb Byte1 (mkColor y (delta Byte1) (delta Byte1)) = Ok (gray_pixel y)) /\
  (forall Y : float,
      Y <> PrimFloat.neg_zero ->
      YCrCbToRgb Float8 (mkColor Y (delta Float8) (delta Float8)) = Ok (gray_pixel Y)).
Proof.
  split.
  - intros y Hy. exact (neutral_chroma_Byte1 Hy).
  - intros Y HY.
    change (YCrCbToRgb Float8 (mkColor Y (delta Float8) (delta Float8)))
      with (Ok (mkColor (Y + 1.403 * (0.5 - 0.5))
                        (Y - 0.714 * (0.5 - 0.5) - 0.344 * (0.5 - 0.5))
                        (Y + 1.773 * (0.5 - 0.5)))%float).
    change (1.403 * (0.5 - 0.5))%float with 0%float.
    change (0.714 * (0.5 - 0.5))%float with 0%float.
    change (0.344 * (0.5 - 0.5))%float with 0%float.
    change (1.773 * (0.5 - 0.5))%float with 0%float.
    rewrite (add_zero_r HY), !sub_zero_r. reflexivity.
Qed.

Lemma neutral_chroma_decodes_to_gray_witness :
  YCrCbToRgb Byte1 (mkColor 77%Z (delta Byte1) (delta Byte1)) = Ok (gray_pixel 77%Z) /\
  YCrCbToRgb Float8 (mkColor 0.25%float (delta Float8) (delta Float8))
  = Ok (gray_pixel 0.25%float).
Proof.
  split.
  - apply (proj1 neutral_chroma_decodes_to_gray). unfold in_range. lia.
  - apply (proj2 neutral_chroma_decodes_to_gray).
    intros E. apply FloatAxioms.Leibniz.eqb_spec in E. vm_compute in E. discriminate.
Defined.

(** X4: with 8-bit storage RgbToYCrCb followed by YCrCbToRgb returns,
    for every gray pixel (v,v,v), the gray pixel of its luminance, which
    is v or v - 1: a gray pixel stays gray and loses at most one
    level. *)
Theorem gray_roundtrip_through_YCrCb :
  forall v : Z,
    in_range 8 v ->
    exists y : Z,
      (p <- RgbToYCrCb Byte1 (gray_pixel v) ;; YCrCbToRgb Byte1 p) = Ok (gray_pixel y) /\
      (y = v \/ y = v - 1)%Z.
Proof.
  intros v Hv. destruct (gray_level_Byte1 Hv) as (y & Ey & Hy).
  exists y. split; [|exact Hy].
  rewrite (gray_chroma_Byte1 Hv), Ey. cbn [bind].
  apply neutral_chroma_Byte1.
  exact (@int_cast_in_range 8 _ y Ey).
Qed.

Lemma gray_roundtrip_through_YCrCb_witness :
  exists y : Z,
    (p <- RgbToYCrCb Byte1 (gray_pixel 128%Z) ;; YCrCbToRgb Byte1 p) = Ok (gray_pixel y) /\
    (y = 128 \/ y = 128 - 1)%Z.
Proof.
  apply (gray_roundtrip_through_YCrCb (v := 128%Z)). unfold in_range. lia.
Defined.

(** ** Pixels that leave the 8-bit range *)

(** X5: with 8-bit storage RgbToXyz has no defined result on any pixel
    (r,255,255): the Z row of the matrix sums to 1.088754, and the Z
    channel of these pixels is above 255. *)
Theorem RgbToXyz_overflows_8bit :
  forall r : Z,
    in_range 8 r -> RgbToXyz Byte1 (mkColor r 255 255)%Z = Undefined.
Proof.
  intros r Hr. apply is_undefined_eq.
  apply (forall_bits_spec 8 xyz_overflows); [vm_compute; reflexivity|exact Hr].
Qed.

Lemma RgbToXyz_overflows_8bit_witness :
  RgbToXyz Byte1 (mkColor 255 255 255)%Z = Undefined.
Proof.
  apply RgbToXyz_overflows_8bit. unfold in_range. lia.
Defined.

(** X6: with 8-bit storage XyzToRgb has no defined result on any pixel
    (0,y,0) with y from 1 to 255: its R channel, -1.53715 y, is
    negative. *)
Theorem XyzToRgb_underflows_8bit :
  forall y : Z,
    (1 <= y < 2 ^ 8)%Z -> XyzToRgb Byte1 (mkColor 0 y 0)%Z = Undefined.
Proof.
  intros y Hy. apply is_undefined_eq.
  replace y with (y - 1 + 1)%Z by lia.
  apply (forall_bits_spec 8 rgb_underflows); [vm_compute; reflexivity|].
  change (2 ^ Z.of_nat 8)%Z with (2 ^ 8)%Z. lia.
Qed.

Lemma XyzToRgb_underflows_8bit_witness :
  XyzToRgb Byte1 (mkColor 0 255 0)%Z = Undefined.
Proof.
  apply XyzToRgb_underflows_8bit. lia.
Defined.

(** X7: with 8-bit storage RgbToHsv and RgbToHsl have no defined result
    on any gray pixel (v,v,v), black and white included: the saturation
    is zero, the hue is 0/0, and the NaN cannot be cast to the channel
    type. *)
Theorem gray_hue_undefined_8bit :
  forall v : Z,
    in_range 8 v ->
    RgbToHsv Byte1 (gray_pixel v) = Undefined /\
    RgbToHsl Byte1 (gray_pixel v) = Undefined.
Proof.
  intros v Hv.
  pose proof (forall_bits_spec 8 gray_hue_undefined ltac:(vm_compute; reflexivity) Hv) as H.
  apply andb_prop in H. destruct H as [H1 H2].
  split; apply is_undefined_eq; assumption.
Qed.

Lemma gray_hue_undefined_8bit_witness :
  RgbToHsv Byte1 (gray_pixel 200%Z) = Undefined /\
  RgbToHsl Byte1 (gray_pixel 200%Z) = Undefined.
Proof.
  apply gray_hue_undefined_8bit. unfold in_range. lia.
Defined.

(** ** Tracking rounding errors *)

Section ErrorTracking.
Local Open Scope R_scope.
Variable rnd : R -> R.
Hypothesis Hrnd : standard_model rnd.

Lemma E_rnd_le_simple (M e : R) :
  0 <= M -> 0 <= e -> E_rnd M e <= E_simple M e.
Proof.
  intros HM He. unfold E_rnd, E_simple, unit_roundoff, underflow_unit. lra.
Qed.

Lemma E_simple_nonneg (M e : R) : 0 <= M -> 0 <= e -> 0 <= E_simple M e.
Proof. intros HM He. unfold E_simple. lra. Qed.

Lemma track_exact (x M : R) : bounded x M -> track x x 0 M.
Proof. unfold track, approx, bounded. intros. repeat split; lra. Qed.

Lemma track_weaken (x x0 e M e' M' : R) :
  track x x0 e M -> e <= e' -> M <= M' -> track x x0 e' M'.
Proof. unfold track, approx, bounded. intros (A & B & He & HM) H1 H2. repeat split; lra. Qed.

Lemma track_rnd (x x0 e M : R) :
  track x x0 e M -> track (rnd x) x0 (E_simple M e) M.
Proof.
  intros (A & B & He & HM).
  pose proof (rnd_approx Hrnd He A B) as Hr.
  pose proof (E_rnd_le_simple HM He) as Hs.
  pose proof (E_simple_nonneg HM He) as Hn.
  unfold track, approx, bounded in *. repeat split; lra.
Qed.

Lemma track_lit (c : Q) (C : R) :
  bounded (Q2R c) C -> track (rnd (Q2R c)) (Q2R c) (E_simple C 0) C.
Proof. intros H. apply track_rnd. apply track_exact. exact H. Qed.

Lemma track_add (a a0 ea Ma b b0 eb Mb : R) :
  track a a0 ea Ma -> track b b0 eb Mb ->
  track (rnd (a + b)) (a0 + b0) (E_simple (Ma + Mb) (ea + eb)) (Ma + Mb).
Proof.
  intros (A & B & He & HM) (A' & B' & He' & HM'). apply track_rnd.
  unfold track, approx, bounded in *. repeat split; lra.
Qed.

Lemma track_sub (a a0 ea Ma b b0 eb Mb : R) :
  track a a0 ea Ma -> track b b0 eb Mb ->
  track (rnd (a - b)) (a0 - b0) (E_simple (Ma + Mb) (ea + eb)) (Ma + Mb).
Proof.
  intros (A & B & He & HM) (A' & B' & He' & HM'). apply track_rnd.
  unfold track, approx, bounded in *. repeat split; lra.
Qed.

Lemma track_mul (a a0 ea Ma b b0 eb Mb : R) :
  track a a0 ea Ma -> track b b0 eb Mb ->
  track (rnd (a * b)) (a0 * b0) (E_simple (Ma * Mb) (Ma * eb + Mb * ea + ea * eb)) (Ma * Mb).
Proof.
  intros (A & B & He & HM) (A' & B' & He' & HM'). apply track_rnd.
  destruct (mul_approx He He' A B A' B') as [P Q].
  repeat split; try apply P; try apply Q.
  - assert (0 <= Ma * eb) by (apply Rmult_le_pos; lra).
    assert (0 <= Mb * ea) by (apply Rmult_le_pos; lra).
    assert (0 <= ea * eb) by (apply Rmult_le_pos; lra). lra.
  - apply Rmult_le_pos; lra.
Qed.

Lemma delta_bounded : bounded (delta (Real rnd)) 1.
Proof.
  change (delta (Real rnd)) with (rnd (rnd (Q2R 1) / rnd (Q2R 2))).
  assert (T1 := @track_lit 1 1 ltac:(unfold bounded, Q2R; cbn [Qnum Qden]; lra)).
  assert (T2 := @track_lit 2 2 ltac:(unfold bounded, Q2R; cbn [Qnum Qden]; lra)).
  destruct T1 as (A1 & _). destruct T2 as (A2 & _).
  set (a := rnd (Q2R 1)) in *. set (b := rnd (Q2R 2)) in *.
  unfold approx, E_simple, Q2R in A1, A2. cbn [Qnum Qden] in A1, A2.
  assert (Hb : 0 < b) by lra.
  assert (Hq : a / b * b = a) by (field; apply Rgt_not_eq; exact Hb).
  assert (Hlo : 2 / 5 <= a / b) by (apply Rmult_le_reg_r with b; [lra|rewrite Hq; lra]).
  assert (Hhi : a / b <= 3 / 5) by (apply Rmult_le_reg_r with b; [lra|rewrite Hq; lra]).
  pose proof (Hrnd (a / b)) as H. apply Rabs_bound in H.
  assert (Rabs (a / b) <= 3 / 5) by (apply Rabs_le; lra).
  unfold unit_roundoff, underflow_unit in H. unfold bounded.
  assert (/ 16777216 * Rabs (a / b) <= 1 / 10) by nra.
  lra.
Qed.

(** The same with the error and the magnitude replaced by given
    bounds. *)
Lemma track_lit_num (c : Q) (C k : R) :
  bounded (Q2R c) C -> E_simple C 0 <= k -> track (rnd (Q2R c)) (Q2R c) k C.
Proof.
  intros H Hk. apply (track_weaken (track_lit H) Hk). lra.
Qed.

Lemma track_add_num (a a0 ea Ma b b0 eb Mb e M : R) :
  track a a0 ea Ma -> track b b0 eb Mb ->
  E_simple (Ma + Mb) (ea + eb) <= e -> Ma + Mb <= M ->
  track (rnd (a + b)) (a0 + b0) e M.
Proof.
  intros Ta Tb He HM. exact (track_weaken (track_add Ta Tb) He HM).
Qed.

Lemma track_sub_num (a a0 ea Ma b b0 eb Mb e M : R) :
  track a a0 ea Ma -> track b b0 eb Mb ->
  E_simple (Ma + Mb) (ea + eb) <= e -> Ma + Mb <= M ->
  track (rnd (a - b)) (a0 - b0) e M.
Proof.
  intros Ta Tb He HM. exact (track_weaken (track_sub Ta Tb) He HM).
Qed.

Lemma track_mul_num (a a0 ea Ma b b0 eb Mb e M : R) :
  track a a0 ea Ma -> track b b0 eb Mb ->
  E_simple (Ma * Mb) (Ma * eb + Mb * ea + ea * eb) <= e -> Ma * Mb <= M ->
  track (rnd (a * b)) (a0 * b0) e M.
Proof.
  intros Ta Tb He HM. exact (track_weaken (track_mul Ta Tb) He HM).
Qed.

(** A row of tracked operands, with a bound for the error of each
    literal [k], of each product [t], of the first sum [s] and of the
    row [e]. *)
Lemma track_dot_num (c1 c2 c3 : Q)
    (C1 C2 C3 x y z x0 y0 z0 e1 e2 e3 M1 M2 M3 k1 k2 k3 t1 t2 t3 s e : R) :
  bounded (Q2R c1) C1 -> bounded (Q2R c2) C2 -> bounded (Q2R c3) C3 ->
  track x x0 e1 M1 -> track y y0 e2 M2 -> track z z0 e3 M3 ->
  E_simple C1 0 <= k1 -> E_simple C2 0 <= k2 -> E_simple C3 0 <= k3 ->
  E_simple (C1 * M1) (C1 * e1 + M1 * k1 + k1 * e1) <= t1 ->
  E_simple (C2 * M2) (C2 * e2 + M2 * k2 + k2 * e2) <= t2 ->
  E_simple (C3 * M3) (C3 * e3 + M3 * k3 + k3 * e3) <= t3 ->
  E_simple (C1 * M1 + C2 * M2) (t1 + t2) <= s ->
  E_simple (C1 * M1 + C2 * M2 + C3 * M3) (s + t3) <= e ->
  track (dot rnd c1 c2 c3 x y z) (Q2R c1 * x0 + Q2R c2 * y0 + Q2R c3 * z0)
        e (C1 * M1 + C2 * M2 + C3 * M3).
Proof.
  intros H1 H2 H3 Tx Ty Tz K1 K2 K3 P1 P2 P3 S12 S.
  pose proof (track_mul_num (track_lit_num H1 K1) Tx P1 (Rle_refl _)) as Q1.
  pose proof (track_mul_num (track_lit_num H2 K2) Ty P2 (Rle_refl _)) as Q2.
  pose proof (track_mul_num (track_lit_num H3 K3) Tz P3 (Rle_refl _)) as Q3.
  exact (track_add_num (track_add_num Q1 Q2 S12 (Rle_refl _)) Q3 S (Rle_refl _)).
Qed.

End ErrorTracking.

Lemma inflate_standard_model : standard_model inflate.
Proof.
  intros x. unfold inflate, unit_roundoff, underflow_unit.
  replace (x + x / 16777216 - x)%R with (x * / 16777216)%R by lra.
  rewrite Rabs_mult, (Rabs_pos_eq (/ 16777216)) by lra. lra.
Qed.

(** ** Luminance and XYZ in rounded arithmetic *)

Section RoundedRanges.

Local Open Scope R_scope.

Variable rnd : R -> R.
Hypothesis Hrnd : standard_model rnd.

Ltac literal_bound := unfold bounded, Q2R; cbn [Qnum Qden]; lra.

Ltac step := unfold E_simple; lra.

Lemma gray_rounded (r g b : R) :
  unit_range r -> unit_range g -> unit_range b ->
  exists y : R,
    RgbToGray (AR := R_arith rnd) (Real rnd) (mkColor r g b) = Ok y /\
    Rabs (y - (299 / 1000 * r + 587 / 1000 * g + 114 / 1000 * b)) <= 1 / 1000000.
Proof.
  intros Hr Hg Hb.
  exists (dot rnd (299 # 1000) (587 # 1000) (114 # 1000) r g b).
  split; [reflexivity|].
  assert (Tr : track r r 0 1) by (apply track_exact; unfold bounded, unit_range in *; lra).
  assert (Tg : track g g 0 1) by (apply track_exact; unfold bounded, unit_range in *; lra).
  assert (Tb : track b b 0 1) by (apply track_exact; unfold bounded, unit_range in *; lra).
  assert (D := @track_dot_num rnd Hrnd (299 # 1000) (587 # 1000) (114 # 1000) (299 / 1000) (587 / 1000) (114 / 1000)
                 _ _ _ _ _ _ _ _ _ _ _ _ (1795 / 100000000000) (3523 / 100000000000) (6841 / 1000000000000) (359 / 10000000000) (7046 / 100000000000) (1369 / 100000000000)
                 (1596 / 10000000000) (1 / 1000000)
                 ltac:(literal_bound) ltac:(literal_bound) ltac:(literal_bound)
                 Tr Tg Tb
                 ltac:(step) ltac:(step) ltac:(step) ltac:(step) ltac:(step) ltac:(step) ltac:(step) ltac:(step)).
  destruct D as (D & _).
  unfold approx, Q2R in D. cbn [Qnum Qden] in D.
  apply Rabs_le. lra.
Qed.

Lemma xyz_rounded (r g b : R) :
  unit_range r -> unit_range g -> unit_range b ->
  exists X Y Z : R,
    RgbToXyz (AR := R_arith rnd) (Real rnd) (mkColor r g b) = Ok (mkColor X Y Z) /\
    Rabs (X - (412453 / 1000000 * r + 357580 / 1000000 * g + 180423 / 1000000 * b))
    <= 1 / 1000000 /\
    Rabs (Y - (212671 / 1000000 * r + 715160 / 1000000 * g + 72169 / 1000000 * b))
    <= 1 / 1000000 /\
    Rabs (Z - (19334 / 1000000 * r + 119193 / 1000000 * g + 950227 / 1000000 * b))
    <= 1 / 1000000.
Proof.
  intros Hr Hg Hb.
  exists (dot rnd (412453 # 1000000) (357580 # 1000000) (180423 # 1000000) r g b),
         (dot rnd (212671 # 1000000) (715160 # 1000000) (72169 # 1000000) r g b),
         (dot rnd (19334 # 1000000) (119193 # 1000000) (950227 # 1000000) r g b).
  split; [reflexivity|].
  assert (Tr : track r r 0 1) by (apply track_exact; unfold bounded, unit_range in *; lra).
  assert (Tg : track g g 0 1) by (apply track_exact; unfold bounded, unit_range in *; lra).
  assert (Tb : track b b 0 1) by (apply track_exact; unfold bounded, unit_range in *; lra).
  assert (DX := @track_dot_num rnd Hrnd (412453 # 1000000) (357580 # 1000000) (180423 # 1000000) (412453 / 1000000) (35758 / 100000) (180423 / 1000000)
                 _ _ _ _ _ _ _ _ _ _ _ _ (2475 / 100000000000) (2146 / 100000000000) (1083 / 100000000000) (495 / 10000000000) (4292 / 100000000000) (2166 / 100000000000)
                 (1387 / 10000000000) (1 / 1000000)
                 ltac:(literal_bound) ltac:(literal_bound) ltac:(literal_bound)
                 Tr Tg Tb
                 ltac:(step) ltac:(step) ltac:(step) ltac:(step) ltac:(step) ltac:(step) ltac:(step) ltac:(step)).
  assert (DY := @track_dot_num rnd Hrnd (212671 # 1000000) (715160 # 1000000) (72169 # 1000000) (212671 / 1000000) (71516 / 100000) (72169 / 1000000)
                 _ _ _ _ _ _ _ _ _ _ _ _ (1277 / 100000000000) (4292 / 100000000000) (4332 / 1000000000000) (2554 / 100000000000) (8584 / 100000000000) (8664 / 1000000000000)
                 (1671 / 10000000000) (1 / 1000000)
                 ltac:(literal_bound) ltac:(literal_bound) ltac:(literal_bound)
                 Tr Tg Tb
                 ltac:(step) ltac:(step) ltac:(step) ltac:(step) ltac:(step) ltac:(step) ltac:(step) ltac:(step)).
  assert (DZ := @track_dot_num rnd Hrnd (19334 # 1000000) (119193 # 1000000) (950227 # 1000000) (19334 / 1000000) (119193 / 1000000) (950227 / 1000000)
                 _ _ _ _ _ _ _ _ _ _ _ _ (1162 / 1000000000000) (7153 / 1000000000000) (5702 / 100000000000) (2324 / 1000000000000) (1431 / 100000000000) (1141 / 10000000000)
                 (2495 / 100000000000) (1 / 1000000)
                 ltac:(literal_bound) ltac:(literal_bound) ltac:(literal_bound)
                 Tr Tg Tb
                 ltac:(step) ltac:(step) ltac:(step) ltac:(step) ltac:(step) ltac:(step) ltac:(step) ltac:(step)).
  destruct DX as (DX & _). destruct DY as (DY & _). destruct DZ as (DZ & _).
  unfold approx, Q2R in DX, DY, DZ. cbn [Qnum Qden] in DX, DY, DZ.
  repeat split; apply Rabs_le; lra.
Qed.

End RoundedRanges.

(** X8: in floating-point storage, in any arithmetic within the standard
    model of rounding, RgbToGray returns for every pixel of the unit
    cube a luminance within a millionth of 0.299 r + 0.587 g + 0.114 b:
    it stays in the unit range up to that error, and a gray pixel
    (v,v,v) keeps its level v up to that error, the three weights
    summing to one. *)
Theorem luminance_in_rounded_arithmetic :
  forall rnd : R -> R,
    standard_model rnd ->
    forall r g b : R,
      unit_range r -> unit_range g -> unit_range b ->
      exists y : R,
        RgbToGray (AR := R_arith rnd) (Real rnd) (mkColor r g b) = Ok y /\
        (Rabs (y - (299 / 1000 * r + 587 / 1000 * g + 114 / 1000 * b)) <= 1 / 1000000)%R /\
        (- (1 / 1000000) <= y <= 1 + 1 / 1000000)%R /\
        (r = g -> g = b -> Rabs (y - r) <= 1 / 1000000)%R.
Proof.
  intros rnd Hrnd r g b Hr Hg Hb.
  destruct (gray_rounded Hrnd Hr Hg Hb) as (y & Ey & Hy).
  exists y. split; [exact Ey|]. split; [exact Hy|].
  apply Rabs_bound in Hy. unfold unit_range in *.
  split; [lra|].
  intros -> ->. apply Rabs_le. lra.
Qed.

Lemma luminance_in_rounded_arithmetic_witness :
  exists y : R,
    RgbToGray (AR := R_arith inflate) (Real inflate) (mkColor (1 / 2) (1 / 2) (1 / 2))%R = Ok y /\
    (Rabs (y - (299 / 1000 * (1 / 2) + 587 / 1000 * (1 / 2) + 114 / 1000 * (1 / 2)))
     <= 1 / 1000000)%R /\
    (- (1 / 1000000) <= y <= 1 + 1 / 1000000)%R /\
    (1 / 2 = 1 / 2 -> 1 / 2 = 1 / 2 -> Rabs (y - 1 / 2) <= 1 / 1000000)%R.
Proof.
  apply (@luminance_in_rounded_arithmetic inflate).
  - intros x. unfold inflate, unit_roundoff, underflow_unit.
    replace (x + x / 16777216 - x)%R with (x * / 16777216)%R by lra.
    rewrite Rabs_mult, (Rabs_pos_eq (/ 16777216)) by lra. lra.
  - unfold unit_range. lra.
  - unfold unit_range. lra.
  - unfold unit_range. lra.
Defined.

(** X9: in floating-point storage, in any arithmetic within the standard
    model of rounding, RgbToXyz maps the unit cube into
    0 <= X <= 0.950456, 0 <= Y <= 1, 0 <= Z <= 1.088754 up to a
    millionth, and Z is above 1, outside the range of the input, on
    every pixel with b = 1 and g >= 1/2. *)
Theorem xyz_range_in_rounded_arithmetic :
  forall rnd : R -> R,
    standard_model rnd ->
    forall r g b : R,
      unit_range r -> unit_range g -> unit_range b ->
      exists X Y Z : R,
        RgbToXyz (AR := R_arith rnd) (Real rnd) (mkColor r g b) = Ok (mkColor X Y Z) /\
        (- (1 / 1000000) <= X <= 950456 / 1000000 + 1 / 1000000)%R /\
        (- (1 / 1000000) <= Y <= 1 + 1 / 1000000)%R /\
        (- (1 / 1000000) <= Z <= 1088754 / 1000000 + 1 / 1000000)%R /\
        (b = 1 -> 1 / 2 <= g -> 1 < Z)%R.
Proof.
  intros rnd Hrnd r g b Hr Hg Hb.
  destruct (xyz_rounded Hrnd Hr Hg Hb) as (X & Y & Z & E & HX & HY & HZ).
  exists X, Y, Z. split; [exact E|].
  apply Rabs_bound in HX, HY, HZ. unfold unit_range in *.
  repeat split; lra.
Qed.

Lemma xyz_range_in_rounded_arithmetic_witness :
  exists X Y Z : R,
    RgbToXyz (AR := R_arith inflate) (Real inflate) (mkColor (1 / 4) (3 / 4) 1)%R
    = Ok (mkColor X Y Z) /\
    (- (1 / 1000000) <= X <= 950456 / 1000000 + 1 / 1000000)%R /\
    (- (1 / 1000000) <= Y <= 1 + 1 / 1000000)%R /\
    (- (1 / 1000000) <= Z <= 1088754 / 1000000 + 1 / 1000000)%R /\
    (1 = 1 -> 1 / 2 <= 3 / 4 -> 1 < Z)%R.
Proof.
  apply (@xyz_range_in_rounded_arithmetic inflate).
  - intros x. unfold inflate, unit_roundoff, underflow_unit.
    replace (x + x / 16777216 - x)%R with (x * / 16777216)%R by lra.
    rewrite Rabs_mult, (Rabs_pos_eq (/ 16777216)) by lra. lra.
  - unfold unit_range. lra.
  - unfold unit_range. lra.
  - unfold unit_range. lra.
Defined.

(** ** YCrCb in rounded arithmetic *)

Section RoundedYCrCb.

Local Open Scope R_scope.

Variable rnd : R -> R.
Hypothesis Hrnd : standard_model rnd.

Ltac literal_bound := unfold bounded, Q2R; cbn [Qnum Qden]; lra.

Ltac step := unfold E_simple; lra.

Lemma delta_near_half : track (delta (Real rnd)) (1 / 2) (1 / 1000000) 1.
Proof.
  change (delta (Real rnd)) with (rnd (rnd (Q2R 1) / rnd (Q2R 2))).
  assert (T1 := @track_lit rnd Hrnd 1 1 ltac:(literal_bound)).
  assert (T2 := @track_lit rnd Hrnd 2 2 ltac:(literal_bound)).
  destruct T1 as (A1 & _). destruct T2 as (A2 & _).
  set (a := rnd (Q2R 1)) in *. set (b := rnd (Q2R 2)) in *.
  unfold approx, E_simple, Q2R in A1, A2. cbn [Qnum Qden] in A1, A2.
  assert (Hb : 0 < b) by lra.
  assert (Hq : a / b * b = a) by (field; apply Rgt_not_eq; exact Hb).
  assert (Hlo : 1 / 2 - 1 / 10000000 <= a / b)
    by (apply Rmult_le_reg_r with b; [lra|rewrite Hq; lra]).
  assert (Hhi : a / b <= 1 / 2 + 1 / 10000000)
    by (apply Rmult_le_reg_r with b; [lra|rewrite Hq; lra]).
  assert (T : track (a / b) (1 / 2) (1 / 10000000) (1 / 2)).
  { unfold track, approx, bounded. repeat split; lra. }
  apply (track_rnd Hrnd) in T.
  apply (track_weaken T); [step|lra].
Qed.

(** The luminance of a pixel of the unit cube, tracked. *)
Lemma luminance_tracked (r g b : R) :
  unit_range r -> unit_range g -> unit_range b ->
  track (dot rnd (299 # 1000) (587 # 1000) (114 # 1000) r g b)
        (Q2R (299 # 1000) * r + Q2R (587 # 1000) * g + Q2R (114 # 1000) * b)
        (1 / 1000000) 1.
Proof.
  intros Hr Hg Hb.
  assert (Tr : track r r 0 1) by (apply track_exact; unfold bounded, unit_range in *; lra).
  assert (Tg : track g g 0 1) by (apply track_exact; unfold bounded, unit_range in *; lra).
  assert (Tb : track b b 0 1) by (apply track_exact; unfold bounded, unit_range in *; lra).
  assert (TY0 := @track_dot_num rnd Hrnd (299 # 1000) (587 # 1000) (114 # 1000) (299 / 1000) (587 / 1000) (114 / 1000)
                 _ _ _ _ _ _ _ _ _ _ _ _ (1795 / 100000000000) (3523 / 100000000000) (6841 / 1000000000000) (359 / 10000000000) (7046 / 100000000000) (1369 / 100000000000)
                 (1596 / 10000000000) (1 / 1000000)
                 ltac:(literal_bound) ltac:(literal_bound) ltac:(literal_bound)
                 Tr Tg Tb
                 ltac:(step) ltac:(step) ltac:(step) ltac:(step) ltac:(step) ltac:(step) ltac:(step) ltac:(step)).
  apply (track_weaken TY0); lra.
Qed.

Lemma ycrcb_forward_rounded (r g b : R) :
  unit_range r -> unit_range g -> unit_range b ->
  let Y0 := 299 / 1000 * r + 587 / 1000 * g + 114 / 1000 * b in
  exists Y Cr Cb : R,
    RgbToYCrCb (AR := R_arith rnd) (Real rnd) (mkColor r g b) = Ok (mkColor Y Cr Cb) /\
    Rabs (Y - Y0) <= 1 / 1000000 /\
    Rabs (Cr - (713 / 1000 * (r - Y0) + 1 / 2)) <= 1 / 100000 /\
    Rabs (Cb - (564 / 1000 * (b - Y0) + 1 / 2)) <= 1 / 100000.
Proof.
  intros Hr Hg Hb Y0'.
  set (d := delta (Real rnd)).
  set (Y := dot rnd (299 # 1000) (587 # 1000) (114 # 1000) r g b).
  exists Y, (rnd (rnd (rnd (r - Y) * rnd (Q2R (713 # 1000))) + d)),
         (rnd (rnd (rnd (b - Y) * rnd (Q2R (564 # 1000))) + d)).
  split; [reflexivity|].
  set (Y0 := Q2R (299 # 1000) * r + Q2R (587 # 1000) * g + Q2R (114 # 1000) * b).
  assert (TY : track Y Y0 (1 / 1000000) 1) by (apply luminance_tracked; assumption).
  assert (Td : track d (1 / 2) (1 / 1000000) 1) by apply delta_near_half.
  assert (Tr : track r r 0 1) by (apply track_exact; unfold bounded, unit_range in *; lra).
  assert (Tg : track g g 0 1) by (apply track_exact; unfold bounded, unit_range in *; lra).
  assert (Tb : track b b 0 1) by (apply track_exact; unfold bounded, unit_range in *; lra).
  clearbody Y d.
  assert (TCr1 := @track_sub_num rnd Hrnd _ _ _ _ _ _ _ _ (1121 / 1000000000) 2 Tr TY ltac:(step) ltac:(step)).
  assert (TCrk := @track_lit_num rnd Hrnd (713 # 1000) (713 / 1000) (4279 / 100000000000) ltac:(literal_bound) ltac:(step)).
  assert (TCr2 := @track_mul_num rnd Hrnd _ _ _ _ _ _ _ _ (9705 / 10000000000) (1426 / 1000) TCr1 TCrk ltac:(step) ltac:(step)).
  assert (TCr := @track_add_num rnd Hrnd _ _ _ _ _ _ _ _ (2117 / 1000000000) (2426 / 1000) TCr2 Td ltac:(step) ltac:(step)).
  assert (TCb1 := @track_sub_num rnd Hrnd _ _ _ _ _ _ _ _ (1121 / 1000000000) 2 Tb TY ltac:(step) ltac:(step)).
  assert (TCbk := @track_lit_num rnd Hrnd (564 # 1000) (564 / 1000) (3385 / 100000000000) ltac:(literal_bound) ltac:(step)).
  assert (TCb2 := @track_mul_num rnd Hrnd _ _ _ _ _ _ _ _ (7677 / 10000000000) (1128 / 1000) TCb1 TCbk ltac:(step) ltac:(step)).
  assert (TCb := @track_add_num rnd Hrnd _ _ _ _ _ _ _ _ (1896 / 1000000000) (2128 / 1000) TCb2 Td ltac:(step) ltac:(step)).
  destruct TY as (AY & _). destruct TCr as (ACr & _). destruct TCb as (ACb & _).
  unfold approx in AY, ACr, ACb. unfold Y0', Y0, Q2R, unit_range in *. cbn [Qnum Qden] in *.
  repeat split; apply Rabs_le; lra.
Qed.

Lemma ycrcb_roundtrip_standard_model (r g b : R) :
  unit_range r -> unit_range g -> unit_range b ->
  exists r' g' b' : R,
    (p <- RgbToYCrCb (AR := R_arith rnd) (Real rnd) (mkColor r g b) ;;
     YCrCbToRgb (AR := R_arith rnd) (Real rnd) p) = Ok (mkColor r' g' b') /\
    Rabs (r' - r) <= 1 / 1000 /\
    Rabs (g' - g) <= 1 / 1000 /\
    Rabs (b' - b) <= 1 / 1000.
Proof.
  intros Hr Hg Hb.
  set (d := delta (Real rnd)).
  set (Y := dot rnd (299 # 1000) (587 # 1000) (114 # 1000) r g b).
  set (Cr := rnd (rnd (rnd (r - Y) * rnd (Q2R (713 # 1000))) + d)).
  set (Cb := rnd (rnd (rnd (b - Y) * rnd (Q2R (564 # 1000))) + d)).
  exists (rnd (Y + rnd (rnd (Q2R (1403 # 1000)) * rnd (Cr - d)))),
         (rnd (rnd (Y - rnd (rnd (Q2R (714 # 1000)) * rnd (Cr - d)))
               - rnd (rnd (Q2R (344 # 1000)) * rnd (Cb - d)))),
         (rnd (Y + rnd (rnd (Q2R (1773 # 1000)) * rnd (Cb - d)))).
  split; [reflexivity|].
  set (Y0 := Q2R (299 # 1000) * r + Q2R (587 # 1000) * g + Q2R (114 # 1000) * b).
  assert (TY : track Y Y0 (1 / 1000000) 1) by (apply luminance_tracked; assumption).
  assert (Td : track d d 0 1) by (apply track_exact, delta_bounded, Hrnd).
  assert (Tr : track r r 0 1) by (apply track_exact; unfold bounded, unit_range in *; lra).
  assert (Tg : track g g 0 1) by (apply track_exact; unfold bounded, unit_range in *; lra).
  assert (Tb : track b b 0 1) by (apply track_exact; unfold bounded, unit_range in *; lra).
  unfold Cr, Cb. clearbody Y d.
  assert (TCr1 := @track_sub_num rnd Hrnd _ _ _ _ _ _ _ _ (1121 / 1000000000) 2 Tr TY ltac:(step) ltac:(step)).
  assert (TCrk := @track_lit_num rnd Hrnd (713 # 1000) (713 / 1000) (4279 / 100000000000) ltac:(literal_bound) ltac:(step)).
  assert (TCr2 := @track_mul_num rnd Hrnd _ _ _ _ _ _ _ _ (9705 / 10000000000) (1426 / 1000) TCr1 TCrk ltac:(step) ltac:(step)).
  assert (TCr := @track_add_num rnd Hrnd _ _ _ _ _ _ _ _ (1117 / 1000000000) (2426 / 1000) TCr2 Td ltac:(step) ltac:(step)).
  assert (TCb1 := @track_sub_num rnd Hrnd _ _ _ _ _ _ _ _ (1121 / 1000000000) 2 Tb TY ltac:(step) ltac:(step)).
  assert (TCbk := @track_lit_num rnd Hrnd (564 # 1000) (564 / 1000) (3385 / 100000000000) ltac:(literal_bound) ltac:(step)).
  assert (TCb2 := @track_mul_num rnd Hrnd _ _ _ _ _ _ _ _ (7677 / 10000000000) (1128 / 1000) TCb1 TCbk ltac:(step) ltac:(step)).
  assert (TCb := @track_add_num rnd Hrnd _ _ _ _ _ _ _ _ (8954 / 10000000000) (2128 / 1000) TCb2 Td ltac:(step) ltac:(step)).
  assert (TDr := @track_sub_num rnd Hrnd _ _ _ _ _ _ _ _ (1323 / 1000000000) (3426 / 1000) TCr Td ltac:(step) ltac:(step)).
  assert (TDb := @track_sub_num rnd Hrnd _ _ _ _ _ _ _ _ (1084 / 1000000000) (3128 / 1000) TCb Td ltac:(step) ltac:(step)).
  assert (TRk := @track_lit_num rnd Hrnd (1403 # 1000) (1403 / 1000) (8419 / 100000000000) ltac:(literal_bound) ltac:(step)).
  assert (TRp := @track_mul_num rnd Hrnd _ _ _ _ _ _ _ _ (2434 / 1000000000) (4807 / 1000) TRk TDr ltac:(step) ltac:(step)).
  assert (TR := @track_add_num rnd Hrnd _ _ _ _ _ _ _ _ (3783 / 1000000000) (5807 / 1000) TY TRp ltac:(step) ltac:(step)).
  assert (TGak := @track_lit_num rnd Hrnd (714 # 1000) (714 / 1000) (4285 / 100000000000) ltac:(literal_bound) ltac:(step)).
  assert (TGap := @track_mul_num rnd Hrnd _ _ _ _ _ _ _ _ (1239 / 1000000000) (2447 / 1000) TGak TDr ltac:(step) ltac:(step)).
  assert (TGbk := @track_lit_num rnd Hrnd (344 # 1000) (344 / 1000) (2065 / 100000000000) ltac:(literal_bound) ltac:(step)).
  assert (TGbp := @track_mul_num rnd Hrnd _ _ _ _ _ _ _ _ (5021 / 10000000000) (1077 / 1000) TGbk TDb ltac:(step) ltac:(step)).
  assert (TG1 := @track_sub_num rnd Hrnd _ _ _ _ _ _ _ _ (2446 / 1000000000) (3447 / 1000) TY TGap ltac:(step) ltac:(step)).
  assert (TG := @track_sub_num rnd Hrnd _ _ _ _ _ _ _ _ (322 / 100000000) (4524 / 1000) TG1 TGbp ltac:(step) ltac:(step)).
  assert (TBk := @track_lit_num rnd Hrnd (1773 # 1000) (1773 / 1000) (1064 / 10000000000) ltac:(literal_bound) ltac:(step)).
  assert (TBp := @track_mul_num rnd Hrnd _ _ _ _ _ _ _ _ (2588 / 1000000000) (5546 / 1000) TBk TDb ltac:(step) ltac:(step)).
  assert (TB := @track_add_num rnd Hrnd _ _ _ _ _ _ _ _ (3981 / 1000000000) (6546 / 1000) TY TBp ltac:(step) ltac:(step)).
  destruct TR as (AR & _). destruct TG as (AG & _). destruct TB as (AB & _).
  unfold approx in AR, AG, AB. unfold Y0, Q2R, unit_range in *. cbn [Qnum Qden] in *.
  repeat split; apply Rabs_le; lra.
Qed.

End RoundedYCrCb.


Lemma swapped_is_off :
  exists p q : Color R,
    RgbToYCrCb (AR := R_arith exact) Exact (mkColor 1 0 0)%R = Ok p /\
    narrow Exact (rgb_of_ycrcb_swapped (AR := R_arith exact)
                                  (delta_ext (AR := R_arith exact) Exact) p) = Ok q /\
    (2 / 10 < c1 q)%R.
Proof.
  eexists. eexists. split; [reflexivity|]. split; [reflexivity|].
  cbn [c0 c1 c2 map_color].
  cbv [rgb_of_ycrcb_swapped delta_ext delta Exact Real Ext R_arith exact widen halve opaque
       lit add sub mul div c0 c1 c2 diff Q2R Qnum Qden].
  lra.
Qed.

(** X10: in floating-point storage, in any arithmetic within the
    standard model of rounding, RgbToYCrCb followed by YCrCbToRgb
    returns every pixel of the unit cube within 1/1000 of itself,
    channel by channel: the coefficients 0.714 on the Cr term and 0.344
    on the Cb term of G undo the forward transform.  With the two
    exchanged, the G channel of pure red, which is 0, would come back
    above 0.2 (in exact arithmetic). *)
Theorem ycrcb_roundtrip_tolerance :
  (forall rnd : R -> R,
      standard_model rnd ->
      forall r g b : R,
        unit_range r -> unit_range g -> unit_range b ->
        exists r' g' b' : R,
          (p <- RgbToYCrCb (AR := R_arith rnd) (Real rnd) (mkColor r g b) ;;
           YCrCbToRgb (AR := R_arith rnd) (Real rnd) p) = Ok (mkColor r' g' b') /\
          (Rabs (r' - r) <= 1 / 1000)%R /\
          (Rabs (g' - g) <= 1 / 1000)%R /\
          (Rabs (b' - b) <= 1 / 1000)%R) /\
  (exists p q : Color R,
      RgbToYCrCb (AR := R_arith exact) Exact (mkColor 1 0 0)%R = Ok p /\
      narrow Exact (rgb_of_ycrcb_swapped (AR := R_arith exact)
                                  (delta_ext (AR := R_arith exact) Exact) p) = Ok q /\
      (2 / 10 < c1 q)%R).
Proof.
  split.
  - intros rnd Hrnd r g b Hr Hg Hb.
    exact (ycrcb_roundtrip_standard_model Hrnd Hr Hg Hb).
  - exact swapped_is_off.
Qed.

Lemma ycrcb_roundtrip_tolerance_witness :
  exists r' g' b' : R,
    (p <- RgbToYCrCb (AR := R_arith inflate) (Real inflate) (mkColor (1 / 2) (1 / 4) 1)%R ;;
     YCrCbToRgb (AR := R_arith inflate) (Real inflate) p) = Ok (mkColor r' g' b') /\
    (Rabs (r' - 1 / 2) <= 1 / 1000)%R /\
    (Rabs (g' - 1 / 4) <= 1 / 1000)%R /\
    (Rabs (b' - 1) <= 1 / 1000)%R.
Proof.
  apply (proj1 ycrcb_roundtrip_tolerance inflate inflate_standard_model);
    unfold unit_range; lra.
Defined.

(** X11: in floating-point storage, in any arithmetic within the
    standard model of rounding, RgbToYCrCb maps the unit cube into
    itself: the luminance is in 0..1 up to a millionth, and the two
    chroma channels, offset by delta, are in 0..1; on a gray pixel both
    chroma channels are within 1/100000 of 1/2. *)
Theorem ycrcb_stays_in_unit_cube :
  forall rnd : R -> R,
    standard_model rnd ->
    forall r g b : R,
      unit_range r -> unit_range g -> unit_range b ->
      exists Y Cr Cb : R,
        RgbToYCrCb (AR := R_arith rnd) (Real rnd) (mkColor r g b) = Ok (mkColor Y Cr Cb) /\
        (- (1 / 1000000) <= Y <= 1 + 1 / 1000000)%R /\
        (0 <= Cr <= 1)%R /\
        (0 <= Cb <= 1)%R /\
        (r = g -> g = b ->
         Rabs (Cr - 1 / 2) <= 1 / 100000 /\ Rabs (Cb - 1 / 2) <= 1 / 100000)%R.
Proof.
  intros rnd Hrnd r g b Hr Hg Hb.
  destruct (ycrcb_forward_rounded Hrnd Hr Hg Hb) as (Y & Cr & Cb & E & HY & HCr & HCb).
  exists Y, Cr, Cb. split; [exact E|].
  apply Rabs_bound in HY, HCr, HCb. unfold unit_range in *.
  split; [lra|]. split; [lra|]. split; [lra|].
  intros -> ->. split; apply Rabs_le; lra.
Qed.

Lemma ycrcb_stays_in_unit_cube_witness :
  exists Y Cr Cb : R,
    RgbToYCrCb (AR := R_arith inflate) (Real inflate) (mkColor (1 / 2) (1 / 2) (1 / 2))%R
    = Ok (mkColor Y Cr Cb) /\
    (- (1 / 1000000) <= Y <= 1 + 1 / 1000000)%R /\
    (0 <= Cr <= 1)%R /\
    (0 <= Cb <= 1)%R /\
    (1 / 2 = 1 / 2 -> 1 / 2 = 1 / 2 ->
     Rabs (Cr - 1 / 2) <= 1 / 100000 /\ Rabs (Cb - 1 / 2) <= 1 / 100000)%R.
Proof.
  apply (@ycrcb_stays_in_unit_cube inflate inflate_standard_model);
    unfold unit_range; lra.
Defined.

(** ** HSV and HSL in rounded arithmetic *)

(** Values are followed with their relative error: a positive [x] that
    is not tiny is rounded to within 7/10^8 of itself, and products and
    quotients of such values stay within the product and the quotient
    of the intervals. *)
Section HueRounded.
Local Open Scope R_scope.
Variable rnd : R -> R.
Hypothesis Hrnd : standard_model rnd.

(** Comparisons are exact, so [std::max] and [std::min] are the maximum
    and the minimum. *)
Lemma std_max_real (a b : R) : std_max (AR := R_arith rnd) a b = Rmax a b.
Proof.
  unfold std_max, Rmax. cbn [ltb R_arith].
  destruct (Rlt_dec a b), (Rle_dec a b); try reflexivity; lra.
Qed.

Lemma std_min_real (a b : R) : std_min (AR := R_arith rnd) a b = Rmin a b.
Proof.
  unfold std_min, Rmin. cbn [ltb R_arith].
  destruct (Rlt_dec b a), (Rle_dec a b); try reflexivity; lra.
Qed.

Lemma rnd_error (x : R) :
  Rabs (rnd x - x) <= 6 / 100000000 * Rabs x + / 1000000000000.
Proof.
  pose proof (Hrnd x) as H. unfold unit_roundoff, underflow_unit in H.
  pose proof (Rabs_pos x). lra.
Qed.

(** Above 1/10000 the absolute part of the error is below a hundred
    millionth of the value. *)
Lemma rnd_near (x : R) :
  1 / 10000 <= x ->
  (1 - 7 / 100000000) * x <= rnd x <= (1 + 7 / 100000000) * x.
Proof.
  intros Hx. pose proof (rnd_error x) as H.
  rewrite (Rabs_pos_eq x) in H by lra. apply Rabs_bound in H. lra.
Qed.

(** A value of either sign that is at most [c D] in magnitude, [D]
    not tiny. *)
Lemma rnd_within (x c D : R) :
  1 / 1000 <= D -> 0 <= c -> - (c * D) <= x <= c * D ->
  - ((c * (1 + 6 / 100000000) + 1 / 1000000000) * D) <= rnd x
  <= (c * (1 + 6 / 100000000) + 1 / 1000000000) * D.
Proof.
  intros HD Hc Hx. pose proof (rnd_error x) as H.
  assert (Ha : Rabs x <= c * D) by (apply Rabs_le; lra).
  apply Rabs_bound in H.
  assert (0 <= c * D) by (apply Rmult_le_pos; lra).
  lra.
Qed.

Lemma rnd_lit (q : Q) (x : R) :
  Q2R q = x -> 1 / 10000 <= x ->
  (1 - 7 / 100000000) * x <= rnd (Q2R q) <= (1 + 7 / 100000000) * x.
Proof. intros -> Hx. apply rnd_near, Hx. Qed.

Lemma rnd_zero : - / 1000000000000 <= rnd (Q2R 0) <= / 1000000000000.
Proof.
  replace (Q2R 0) with 0 by (unfold Q2R; cbn; lra).
  pose proof (rnd_error 0) as H. rewrite Rminus_0_r, Rabs_R0 in H.
  apply Rabs_bound in H. lra.
Qed.

(** A quotient of two values known up to a factor. *)
Lemma div_between (a b a0 b0 la ha lb hb l h : R) :
  0 < b0 -> 0 <= a0 -> 0 < lb -> 0 <= l -> 0 <= h ->
  la * a0 <= a <= ha * a0 -> lb * b0 <= b <= hb * b0 ->
  l * hb <= la -> ha <= h * lb ->
  l * (a0 / b0) <= a / b <= h * (a0 / b0).
Proof.
  intros Hb0 Ha0 Hlb Hl Hh Ha Hb Hlo Hhi.
  assert (Hbpos : 0 < b) by nra.
  set (x := a / b). set (x0 := a0 / b0).
  assert (Ex : x * b = a) by (unfold x; field; lra).
  assert (Ex0 : x0 * b0 = a0) by (unfold x0; field; lra).
  assert (Hx0 : 0 <= x0) by (unfold x0; apply Rmult_le_pos; [lra|apply Rlt_le, Rinv_0_lt_compat, Hb0]).
  assert (P0 : 0 <= x0 * b0) by lra.
  rewrite <- Ex, <- Ex0 in Ha. clearbody x x0.
  split; apply Rmult_le_reg_r with b; try exact Hbpos.
  - assert (l * x0 * b <= l * x0 * (hb * b0)).
    { apply Rmult_le_compat_l; [apply Rmult_le_pos; lra|lra]. }
    assert (l * hb * (x0 * b0) <= la * (x0 * b0)).
    { apply Rmult_le_compat_r; lra. }
    lra.
  - assert (h * x0 * (lb * b0) <= h * x0 * b).
    { apply Rmult_le_compat_l; [apply Rmult_le_pos; lra|lra]. }
    assert (ha * (x0 * b0) <= h * lb * (x0 * b0)).
    { apply Rmult_le_compat_r; lra. }
    lra.
Qed.


Lemma rnd_60 : 5999999 / 100000 <= rnd (Q2R 60) <= 6000001 / 100000.
Proof.
  assert (E : Q2R 60 = 60) by (unfold Q2R; cbn; lra).
  pose proof (rnd_lit E ltac:(lra)). lra.
Qed.

(** The quotient of the hue formula, for a difference of two channels
    that is at most [D0] in magnitude and a saturation [S] that is not
    much below [D0]. *)
Lemma hue_term (k0 D0 S : R) :
  1 / 1000 <= D0 <= 1 -> - D0 <= k0 <= D0 -> D0 <= 1001 / 1000 * S ->
  - (601 / 10) <= rnd (rnd (rnd k0 * rnd (Q2R 60)) / S) <= 601 / 10.
Proof.
  intros HD Hk HS.
  pose proof (@rnd_within k0 1 D0 ltac:(lra) ltac:(lra) ltac:(lra)) as Hk1.
  pose proof rnd_60 as H60.
  set (k := rnd k0) in *. set (c := rnd (Q2R 60)) in *.
  assert (Hp : - (6000002 / 100000 * D0) <= k * c <= 6000002 / 100000 * D0).
  { assert (0 <= (100000007 / 100000000 * D0 - k) * c) by (apply Rmult_le_pos; lra).
    assert (0 <= (k + 100000007 / 100000000 * D0) * c) by (apply Rmult_le_pos; lra).
    assert (0 <= D0 * (6000001 / 100000 - c)) by (apply Rmult_le_pos; lra).
    lra. }
  pose proof (@rnd_within (k * c) (6000002 / 100000) D0 ltac:(lra) ltac:(lra) Hp) as Hp1.
  set (p := rnd (k * c)) in *.
  assert (S0 : 0 < S) by lra.
  set (x := p / S).
  assert (Ex : x * S = p) by (unfold x; field; lra).
  assert (Hx : - (6007 / 100) <= x <= 6007 / 100).
  { split; apply Rmult_le_reg_r with S; try exact S0; rewrite Ex; lra. }
  pose proof (rnd_error x) as He.
  assert (Ha : Rabs x <= 6007 / 100) by (apply Rabs_le; lra).
  apply Rabs_bound in He. lra.
Qed.

(** The hue after the wrap-around, whichever channel is the largest. *)
Lemma hue_wrapped (V S r g b D0 : R) :
  1 / 1000 <= D0 <= 1 ->
  - D0 <= g - b <= D0 -> - D0 <= b - r <= D0 -> - D0 <= r - g <= D0 ->
  D0 <= 1001 / 1000 * S ->
  - / 1000000000000 <= hue (AR := R_arith rnd) V S (mkColor r g b) <= 360 + 1 / 1000.
Proof.
  intros HD H1 H2 H3 HS.
  pose proof (hue_term HD H1 HS) as T1.
  pose proof (hue_term HD H2 HS) as T2.
  pose proof (hue_term HD H3 HS) as T3.
  pose proof rnd_zero as Hz.
  assert (E120 : Q2R 120 = 120) by (unfold Q2R; cbn; lra).
  assert (E240 : Q2R 240 = 240) by (unfold Q2R; cbn; lra).
  assert (E360 : Q2R 360 = 360) by (unfold Q2R; cbn; lra).
  pose proof (rnd_lit E120 ltac:(lra)) as H120.
  pose proof (rnd_lit E240 ltac:(lra)) as H240.
  pose proof (rnd_lit E360 ltac:(lra)) as H360.
  unfold hue. cbn [c0 c1 c2 eqb ltb lit add sub mul div R_arith].
  set (z := rnd (Q2R 0)) in *.
  set (t1 := rnd (rnd (rnd (g - b) * rnd (Q2R 60)) / S)) in *.
  set (t2 := rnd (rnd (rnd (b - r) * rnd (Q2R 60)) / S)) in *.
  set (t3 := rnd (rnd (rnd (r - g) * rnd (Q2R 60)) / S)) in *.
  set (c120 := rnd (Q2R 120)) in *. set (c240 := rnd (Q2R 240)) in *.
  set (c360 := rnd (Q2R 360)) in *.
  destruct (Req_dec_T V r) as [E1|N1].
  - destruct (Rlt_dec t1 z) as [W|W].
    + pose proof (@rnd_near (t1 + c360) ltac:(lra)). lra.
    + lra.
  - destruct (Req_dec_T V g) as [E2|N2].
    + pose proof (@rnd_near (c120 + t2) ltac:(lra)) as Hh.
      destruct (Rlt_dec (rnd (c120 + t2)) z) as [W|W]; [lra|]. lra.
    + pose proof (@rnd_near (c240 + t3) ltac:(lra)) as Hh.
      destruct (Rlt_dec (rnd (c240 + t3)) z) as [W|W]; [lra|]. lra.
Qed.

(** A product of two values known up to a factor. *)
Lemma mul_between (a b a0 b0 la ha lb hb l h : R) :
  0 <= a0 -> 0 <= b0 -> 0 <= la -> 0 <= lb ->
  la * a0 <= a <= ha * a0 -> lb * b0 <= b <= hb * b0 ->
  l <= la * lb -> ha * hb <= h ->
  l * (a0 * b0) <= a * b <= h * (a0 * b0).
Proof.
  intros Ha0 Hb0 Hla Hlb Ha Hb Hl Hh.
  assert (P : 0 <= a0 * b0) by (apply Rmult_le_pos; lra).
  assert (A0 : 0 <= a) by (assert (0 <= la * a0) by (apply Rmult_le_pos; lra); lra).
  assert (B0 : 0 <= lb * b0) by (apply Rmult_le_pos; lra).
  split.
  - assert (la * a0 * (lb * b0) <= a * (lb * b0)) by (apply Rmult_le_compat_r; lra).
    assert (a * (lb * b0) <= a * b) by (apply Rmult_le_compat_l; lra).
    assert (l * (a0 * b0) <= la * lb * (a0 * b0)) by (apply Rmult_le_compat_r; lra).
    lra.
  - assert (a * b <= a * (hb * b0)) by (apply Rmult_le_compat_l; lra).
    assert (a * (hb * b0) <= ha * a0 * (hb * b0)) by (apply Rmult_le_compat_r; lra).
    assert (ha * hb * (a0 * b0) <= h * (a0 * b0)) by (apply Rmult_le_compat_r; lra).
    lra.
Qed.

End HueRounded.

(** The two converters are the cast of the raw triple. *)
Lemma RgbToHsv_raw (T A : Type) (AR : Arith A) (CH : Channel T A) (from : Color T) :
  RgbToHsv CH from = narrow CH (hsv_ext (map_color DefaultConverter from)).
Proof.
  unfold RgbToHsv, hsv_ext, hue, max3, min3, narrow, To. cbn [c0 c1 c2].
  destruct (eqb _ (lit 0)); reflexivity.
Qed.

Lemma RgbToHsl_raw (T A : Type) (AR : Arith A) (CH : Channel T A) (from : Color T) :
  RgbToHsl CH from = narrow CH (hsl_ext (map_color DefaultConverter from)).
Proof. reflexivity. Qed.

Section Saturated.
Local Open Scope R_scope.
Variable rnd : R -> R.
Hypothesis Hrnd : standard_model rnd.

(** A pixel of the unit cube whose largest and smallest channel are at
    least [1/1000] apart. *)
Lemma spread (r g b : R) :
  unit_range r -> unit_range g -> unit_range b ->
  1 / 1000 <= Rmax r (Rmax g b) - Rmin r (Rmin g b) ->
  let V := Rmax (Rmax r g) (Rmax g b) in
  let m := Rmin (Rmin r g) (Rmin g b) in
  V = Rmax r (Rmax g b) /\ m = Rmin r (Rmin g b) /\
  0 <= m /\ V <= 1 /\ 1 / 1000 <= V - m /\
  - (V - m) <= g - b <= V - m /\ - (V - m) <= b - r <= V - m /\ - (V - m) <= r - g <= V - m.
Proof.
  unfold unit_range. intros Hr Hg Hb. unfold Rmax, Rmin.
  repeat destruct (Rle_dec _ _); intros HD; cbv zeta; repeat split; lra.
Qed.

(** The saturation is a quotient of two values known up to 7/10^8, the
    hue a quotient by that saturation. *)
Lemma hsv_rounded (r g b : R) :
  unit_range r -> unit_range g -> unit_range b ->
  1 / 1000 <= Rmax r (Rmax g b) - Rmin r (Rmin g b) ->
  exists H S V : R,
    RgbToHsv (AR := R_arith rnd) (Real rnd) (mkColor r g b) = Ok (mkColor H S V) /\
    V = Rmax r (Rmax g b) /\
    Rabs (S - (V - Rmin r (Rmin g b)) / V) <= 1 / 1000000 /\
    0 < S <= 1 + 1 / 1000000 /\
    - (1 / 1000000) <= H <= 360 + 1 / 1000.
Proof.
  intros Hr Hg Hb HD.
  destruct (spread Hr Hg Hb HD) as (EV & Em & Hm & HV & HVm & K1 & K2 & K3).
  rewrite RgbToHsv_raw. unfold hsv_ext, max3, min3, narrow.
  cbn [map_color c0 c1 c2 DefaultConverter Real Ext static_cast bind].
  rewrite !(std_max_real rnd), !(std_min_real rnd).
  rewrite <- EV, <- Em in *.
  set (V := Rmax (Rmax r g) (Rmax g b)) in *.
  set (m := Rmin (Rmin r g) (Rmin g b)) in *.
  clearbody V m.
  cbn [eqb lit sub div R_arith].
  pose proof (rnd_zero Hrnd) as Hz.
  destruct (Req_dec_T V (rnd (Q2R 0))) as [E0|_]; [lra|].
  set (S0 := (V - m) / V).
  assert (ES0 : S0 * V = V - m) by (unfold S0; field; lra).
  assert (HS0 : V - m <= S0 <= 1) by (split; nra).
  pose proof (@rnd_near rnd Hrnd (V - m) ltac:(lra)) as Hd.
  pose proof (@div_between (rnd (V - m)) V (V - m) V
                (1 - 7 / 100000000) (1 + 7 / 100000000) 1 1
                (1 - 7 / 100000000) (1 + 7 / 100000000)
                ltac:(lra) ltac:(lra) ltac:(lra) ltac:(lra) ltac:(lra)
                Hd ltac:(lra) ltac:(lra) ltac:(lra)) as Hq.
  fold S0 in Hq.
  pose proof (@rnd_near rnd Hrnd (rnd (V - m) / V) ltac:(lra)) as HS.
  set (S := rnd (rnd (V - m) / V)) in *.
  exists (hue (AR := R_arith rnd) V S (mkColor r g b)), S, V.
  split; [reflexivity|]. split; [reflexivity|].
  fold S0. clearbody S S0.
  split; [apply Rabs_le; lra|]. split; [lra|].
  pose proof (@hue_wrapped rnd Hrnd V S r g b (V - m) ltac:(lra) K1 K2 K3 ltac:(lra)).
  lra.
Qed.

(** The branch taken for the saturation is decided on the rounded
    lightness; next to L = 1/2 either may be taken, and both give a
    saturation of at most 1: max + min is at most 1 + 3/10^7 in the
    first and 2 - (max + min) is at most that in the second. *)
Lemma hsl_rounded (r g b : R) :
  unit_range r -> unit_range g -> unit_range b ->
  1 / 1000 <= Rmax r (Rmax g b) - Rmin r (Rmin g b) ->
  exists H S L : R,
    RgbToHsl (AR := R_arith rnd) (Real rnd) (mkColor r g b) = Ok (mkColor H S L) /\
    Rabs (L - (Rmax r (Rmax g b) + Rmin r (Rmin g b)) / 2) <= 1 / 1000000 /\
    0 < S <= 1 + 1 / 1000 /\
    - (1 / 1000000) <= H <= 360 + 1 / 1000.
Proof.
  intros Hr Hg Hb HD.
  destruct (spread Hr Hg Hb HD) as (EV & Em & Hm & HV & HVm & K1 & K2 & K3).
  rewrite RgbToHsl_raw. unfold hsl_ext, max3, min3, narrow.
  cbn [map_color c0 c1 c2 DefaultConverter Real Ext static_cast bind].
  rewrite !(std_max_real rnd), !(std_min_real rnd).
  rewrite <- EV, <- Em in *.
  set (V := Rmax (Rmax r g) (Rmax g b)) in *.
  set (m := Rmin (Rmin r g) (Rmin g b)) in *.
  clearbody V m.
  cbn [ltb lit add sub div R_arith].
  assert (E2 : Q2R 2 = 2) by (unfold Q2R; cbn; lra).
  assert (E5 : Q2R (5 # 10) = 1 / 2) by (unfold Q2R; cbn; lra).
  pose proof (rnd_lit Hrnd E2 ltac:(lra)) as H2.
  pose proof (rnd_lit Hrnd E5 ltac:(lra)) as H5.
  pose proof (@rnd_near rnd Hrnd (V + m) ltac:(lra)) as Hsum.
  pose proof (@rnd_near rnd Hrnd (V - m) ltac:(lra)) as Hd.
  set (c2 := rnd (Q2R 2)) in *. set (h5 := rnd (Q2R (5 # 10))) in *.
  set (sum := rnd (V + m)) in *. set (d := rnd (V - m)) in *.
  (* lightness *)
  pose proof (@div_between sum c2 (V + m) 2
                (1 - 7 / 100000000) (1 + 7 / 100000000)
                (1 - 7 / 100000000) (1 + 7 / 100000000)
                (1 - 15 / 100000000) (1 + 15 / 100000000)
                ltac:(lra) ltac:(lra) ltac:(lra) ltac:(lra) ltac:(lra)
                Hsum H2 ltac:(lra) ltac:(lra)) as HqL.
  pose proof (@rnd_near rnd Hrnd (sum / c2) ltac:(lra)) as HL.
  set (L := rnd (sum / c2)) in *.
  set (S := if (if Rlt_dec L h5 then true else false)
            then rnd (d / sum) else rnd (d / rnd (c2 - sum))).
  assert (HS : 0 < S <= 1 + 1 / 1000 /\ V - m <= 1001 / 1000 * S).
  { unfold S. destruct (Rlt_dec L h5) as [B|B].
    - set (S0 := (V - m) / (V + m)).
      assert (ES0 : S0 * (V + m) = V - m) by (unfold S0; field; lra).
      assert (HS0 : V - m <= (1 + 3 / 10000000) * S0 /\ S0 <= 1) by (split; nra).
      pose proof (@div_between d sum (V - m) (V + m)
                    (1 - 7 / 100000000) (1 + 7 / 100000000)
                    (1 - 7 / 100000000) (1 + 7 / 100000000)
                    (1 - 15 / 100000000) (1 + 15 / 100000000)
                    ltac:(lra) ltac:(lra) ltac:(lra) ltac:(lra) ltac:(lra)
                    Hd Hsum ltac:(lra) ltac:(lra)) as Hq.
      fold S0 in Hq.
      pose proof (@rnd_near rnd Hrnd (d / sum) ltac:(lra)) as Hr'.
      lra.
    - set (E0 := 2 - (V + m)).
      assert (HE0 : 1 / 1000 <= E0 <= 1 + 3 / 10000000) by (unfold E0; lra).
      set (S0 := (V - m) / E0).
      assert (ES0 : S0 * E0 = V - m) by (unfold S0; field; lra).
      assert (HS0 : V - m <= (1 + 3 / 10000000) * S0 /\ S0 <= 1) by (unfold E0 in *; split; nra).
      assert (Hpre : (1 - 28 / 100000) * E0 <= c2 - sum <= (1 + 28 / 100000) * E0) by (unfold E0 in *; lra).
      pose proof (@rnd_near rnd Hrnd (c2 - sum) ltac:(lra)) as Hden.
      assert (Hden' : (1 - 29 / 100000) * E0 <= rnd (c2 - sum) <= (1 + 29 / 100000) * E0) by lra.
      pose proof (@div_between d (rnd (c2 - sum)) (V - m) E0
                    (1 - 7 / 100000000) (1 + 7 / 100000000)
                    (1 - 29 / 100000) (1 + 29 / 100000)
                    (1 - 3 / 10000) (1 + 3 / 10000)
                    ltac:(lra) ltac:(lra) ltac:(lra) ltac:(lra) ltac:(lra)
                    Hd Hden' ltac:(lra) ltac:(lra)) as Hq.
      fold S0 in Hq.
      pose proof (@rnd_near rnd Hrnd (d / rnd (c2 - sum)) ltac:(lra)) as Hr'.
      lra. }
  clearbody S.
  exists (hue (AR := R_arith rnd) V S (mkColor r g b)), S, L.
  split; [reflexivity|].
  split; [apply Rabs_le; lra|]. split; [lra|].
  pose proof (@hue_wrapped rnd Hrnd V S r g b (V - m) ltac:(lra) K1 K2 K3 ltac:(lra)).
  lra.
Qed.



End Saturated.

(** X12: in floating-point storage, in any arithmetic within the
    standard model of rounding, RgbToHsv maps every pixel of the unit
    cube whose largest and smallest channel are at least 1/1000 apart
    to V = max(r,g,b), to a saturation within a millionth of
    (V - min(r,g,b)) / V, positive and at most 1 up to that error, and
    to a hue between 0 and 360 up to 1/1000.  The upper end is reached:
    in binary64 the hue of (1, 0, 1e-20) is 360, a slightly negative
    quotient being wrapped by adding 360. *)
Theorem hsv_ranges_in_rounded_arithmetic :
  (forall rnd : R -> R,
      standard_model rnd ->
      forall r g b : R,
        unit_range r -> unit_range g -> unit_range b ->
        (1 / 1000 <= Rmax r (Rmax g b) - Rmin r (Rmin g b))%R ->
        exists H S V : R,
          RgbToHsv (AR := R_arith rnd) (Real rnd) (mkColor r g b) = Ok (mkColor H S V) /\
          V = Rmax r (Rmax g b) /\
          (Rabs (S - (V - Rmin r (Rmin g b)) / V) <= 1 / 1000000)%R /\
          (0 < S <= 1 + 1 / 1000000)%R /\
          (- (1 / 1000000) <= H <= 360 + 1 / 1000)%R) /\
  RgbToHsv Float8 (mkColor 1 0 1e-20)%float = Ok (mkColor 360 1 1)%float.
Proof.
  split.
  - intros rnd Hrnd r g b Hr Hg Hb HD. exact (hsv_rounded Hrnd Hr Hg Hb HD).
  - vm_compute. reflexivity.
Qed.

Lemma hsv_ranges_in_rounded_arithmetic_witness :
  exists H S V : R,
    RgbToHsv (AR := R_arith inflate) (Real inflate) (mkColor (1 / 2) (1 / 4) 1)%R
    = Ok (mkColor H S V) /\
    V = Rmax (1 / 2) (Rmax (1 / 4) 1) /\
    (Rabs (S - (V - Rmin (1 / 2) (Rmin (1 / 4) 1)) / V) <= 1 / 1000000)%R /\
    (0 < S <= 1 + 1 / 1000000)%R /\
    (- (1 / 1000000) <= H <= 360 + 1 / 1000)%R.
Proof.
  apply (proj1 hsv_ranges_in_rounded_arithmetic inflate inflate_standard_model);
    try (unfold unit_range; lra).
  unfold Rmax, Rmin. repeat destruct (Rle_dec _ _); lra.
Defined.

(** X13: in floating-point storage, in any arithmetic within the
    standard model of rounding, RgbToHsl maps every pixel of the unit
    cube whose largest and smallest channel are at least 1/1000 apart
    to a lightness within a millionth of (max + min) / 2, to a
    saturation that is positive and at most 1 up to 1/1000, and to a
    hue between 0 and 360 up to 1/1000.  Nearer to gray the bounds are
    lost: in binary64 the pixel one unit in the last place below white
    gets the saturation +infinity (2 - (max + min) is rounded to 0),
    and the hue of (1, 0, 1e-20) is 360. *)
Theorem hsl_ranges_in_rounded_arithmetic :
  (forall rnd : R -> R,
      standard_model rnd ->
      forall r g b : R,
        unit_range r -> unit_range g -> unit_range b ->
        (1 / 1000 <= Rmax r (Rmax g b) - Rmin r (Rmin g b))%R ->
        exists H S L : R,
          RgbToHsl (AR := R_arith rnd) (Real rnd) (mkColor r g b) = Ok (mkColor H S L) /\
          (Rabs (L - (Rmax r (Rmax g b) + Rmin r (Rmin g b)) / 2) <= 1 / 1000000)%R /\
          (0 < S <= 1 + 1 / 1000)%R /\
          (- (1 / 1000000) <= H <= 360 + 1 / 1000)%R) /\
  RgbToHsl Float8 (mkColor 1 1 0.9999999999999999)%float
  = Ok (mkColor 0 PrimFloat.infinity 1)%float /\
  RgbToHsl Float8 (mkColor 1 0 1e-20)%float = Ok (mkColor 360 1 0.5)%float.
Proof.
  split; [|split].
  - intros rnd Hrnd r g b Hr Hg Hb HD. exact (hsl_rounded Hrnd Hr Hg Hb HD).
  - vm_compute. reflexivity.
  - vm_compute. reflexivity.
Qed.

Lemma hsl_ranges_in_rounded_arithmetic_witness :
  exists H S L : R,
    RgbToHsl (AR := R_arith inflate) (Real inflate) (mkColor (1 / 2) (1 / 4) 1)%R
    = Ok (mkColor H S L) /\
    (Rabs (L - (Rmax (1 / 2) (Rmax (1 / 4) 1) + Rmin (1 / 2) (Rmin (1 / 4) 1)) / 2)
     <= 1 / 1000000)%R /\
    (0 < S <= 1 + 1 / 1000)%R /\
    (- (1 / 1000000) <= H <= 360 + 1 / 1000)%R.
Proof.
  apply (proj1 hsl_ranges_in_rounded_arithmetic inflate inflate_standard_model);
    try (unfold unit_range; lra).
  unfold Rmax, Rmin. repeat destruct (Rle_dec _ _); lra.
Defined.



(** ** Gray pixels and NaN with double storage *)

Lemma SFcompare_refl (x : spec_float) :
  SFcompare x x = match x with S754_nan => None | _ => Some Eq end.
Proof.
  destruct x as [s|s| |s m e]; cbn; try reflexivity.
  - destruct s; reflexivity.
  - rewrite Z.compare_refl, Pos.compare_cont_refl. destruct s; reflexivity.
Qed.

Lemma is_nan_spec (x : float) : PrimFloat.is_nan x = true <-> Prim2SF x = S754_nan.
Proof.
  unfold PrimFloat.is_nan. rewrite FloatAxioms.eqb_spec. unfold SFeqb.
  rewrite SFcompare_refl. destruct (Prim2SF x); cbn; split; intros H; try discriminate; reflexivity.
Qed.

Lemma ltb_refl (x : float) : PrimFloat.ltb x x = false.
Proof.
  rewrite FloatAxioms.ltb_spec. unfold SFltb. rewrite SFcompare_refl.
  destruct (Prim2SF x); reflexivity.
Qed.

Lemma std_max_same (x : float) : std_max x x = x.
Proof. unfold std_max. cbn [ltb B64.arith]. rewrite ltb_refl. reflexivity. Qed.

Lemma std_min_same (x : float) : std_min x x = x.
Proof. unfold std_min. cbn [ltb B64.arith]. rewrite ltb_refl. reflexivity. Qed.

Lemma sub_same (x : float) :
  Prim2SF (x - x)%float
  = match Prim2SF x with
    | S754_zero _ | S754_finite _ _ _ => S754_zero false
    | _ => S754_nan
    end.
Proof.
  rewrite FloatAxioms.sub_spec. unfold SF64sub.
  destruct (Prim2SF x) as [s|s| |s m e]; cbn.
  - destruct s; reflexivity.
  - destruct s; reflexivity.
  - reflexivity.
  - rewrite Z.sub_diag. reflexivity.
Qed.

Lemma ltb_nan_l (x y : float) : Prim2SF x = S754_nan -> PrimFloat.ltb x y = false.
Proof.
  intros H. rewrite FloatAxioms.ltb_spec, H. reflexivity.
Qed.

Lemma gray_hsv_hue_is_nan (v : float) :
  exists H S : float,
    RgbToHsv Float8 (gray_pixel v) = Ok (mkColor H S v) /\ PrimFloat.is_nan H = true.
Proof.
  unfold RgbToHsv, To, gray_pixel.
  cbn [map_color c0 c1 c2 DefaultConverter Float8 Ext static_cast bind].
  rewrite !std_max_same, !std_min_same.
  cbn [eqb ltb lit add sub mul div B64.arith].
  change (B64.of_Q 0) with 0%float. change (B64.of_Q 60) with 60%float.
  change (B64.of_Q 120) with 120%float. change (B64.of_Q 240) with 240%float.
  change (B64.of_Q 360) with 360%float.
  set (z := (v - v)%float).
  set (S := if negb (v =? 0)%float then (z / v)%float else 0%float).
  set (H0 := if (v =? v)%float then (z * 60 / S)%float
             else if (v =? v)%float then (120 + z * 60 / S)%float
             else (240 + z * 60 / S)%float).
  assert (N : Prim2SF H0 = S754_nan).
  { pose proof (sub_same v) as Hz. fold z in Hz.
    assert (Ez60 : Prim2SF (z * 60)%float = SF64mul (Prim2SF z) (Prim2SF 60%float))
      by apply FloatAxioms.mul_spec.
    change (Prim2SF 60%float) with (S754_finite false 8444249301319680 (-47)) in Ez60.
    unfold H0, S.
    rewrite !FloatAxioms.eqb_spec. unfold SFeqb. rewrite SFcompare_refl.
    change (Prim2SF 0%float) with (S754_zero false).
    destruct (Prim2SF v) as [s|s| |s m e] eqn:Ev.
    - (* zero *)
      cbn [SFcompare negb]. rewrite FloatAxioms.div_spec, Ez60, Hz.
      change (Prim2SF 0%float) with (S754_zero false). reflexivity.
    - (* infinity *)
      rewrite FloatAxioms.div_spec, Ez60, Hz. reflexivity.
    - (* nan *)
      rewrite FloatAxioms.add_spec, FloatAxioms.div_spec, Ez60, Hz.
      unfold SF64add, SF64div, SF64mul. cbn.
      destruct (Prim2SF 240%float); reflexivity.
    - (* finite *)
      assert (Ec : SFcompare (S754_finite s m e) (S754_zero false) = Some (if s then Lt else Gt))
        by reflexivity.
      rewrite Ec. replace (match (if s then Lt else Gt) with Eq => true | _ => false end)
        with false by (destruct s; reflexivity).
      cbn [negb]. rewrite !FloatAxioms.div_spec, Ez60, Hz, Ev. reflexivity. }
  exists (if (H0 <? 0)%float then (H0 + 360)%float else H0), S.
  split; [reflexivity|].
  rewrite (@ltb_nan_l H0 0%float N). apply is_nan_spec. exact N.
Qed.

Lemma div_zero_nan (a b : float) :
  Prim2SF a = S754_zero false \/ Prim2SF a = S754_nan ->
  (exists s, Prim2SF b = S754_zero s) \/ Prim2SF b = S754_nan ->
  Prim2SF (a / b)%float = S754_nan.
Proof.
  intros Ha Hb. rewrite FloatAxioms.div_spec.
  destruct Ha as [-> | ->], Hb as [[s ->] | ->]; reflexivity.
Qed.

Lemma zero_div_any (a b : float) :
  Prim2SF a = S754_zero false \/ Prim2SF a = S754_nan ->
  (exists s, Prim2SF (a / b)%float = S754_zero s) \/ Prim2SF (a / b)%float = S754_nan.
Proof.
  intros Ha. rewrite FloatAxioms.div_spec.
  destruct Ha as [-> | ->]; [|right; reflexivity].
  destruct (Prim2SF b) as [s|s| |s m e]; cbn.
  - right; reflexivity.
  - left; eexists; reflexivity.
  - right; reflexivity.
  - left; eexists; reflexivity.
Qed.

Lemma zero_times_60 (z : float) :
  Prim2SF z = S754_zero false \/ Prim2SF z = S754_nan ->
  Prim2SF (z * 60)%float = S754_zero false \/ Prim2SF (z * 60)%float = S754_nan.
Proof.
  intros Hz. rewrite FloatAxioms.mul_spec.
  change (Prim2SF 60%float) with (S754_finite false 8444249301319680 (-47)).
  destruct Hz as [-> | ->]; [left|right]; reflexivity.
Qed.

Lemma add_nan_r (a b : float) : Prim2SF b = S754_nan -> Prim2SF (a + b)%float = S754_nan.
Proof.
  intros H. rewrite FloatAxioms.add_spec, H. destruct (Prim2SF a); reflexivity.
Qed.

Lemma add_nan_l (a b : float) : Prim2SF a = S754_nan -> Prim2SF (a + b)%float = S754_nan.
Proof.
  intros H. rewrite FloatAxioms.add_spec, H. reflexivity.
Qed.

Lemma mul_nan_r (a b : float) : Prim2SF b = S754_nan -> Prim2SF (a * b)%float = S754_nan.
Proof.
  intros H. rewrite FloatAxioms.mul_spec, H. destruct (Prim2SF a); reflexivity.
Qed.

Lemma sub_same_cases (v : float) :
  Prim2SF (v - v)%float = S754_zero false \/ Prim2SF (v - v)%float = S754_nan.
Proof.
  rewrite sub_same. destruct (Prim2SF v); [left|right|right|left]; reflexivity.
Qed.

Lemma gray_hsl_hue_is_nan (v : float) :
  exists H S L : float,
    RgbToHsl Float8 (gray_pixel v) = Ok (mkColor H S L) /\ PrimFloat.is_nan H = true.
Proof.
  unfold RgbToHsl, To, gray_pixel.
  cbn [map_color c0 c1 c2 DefaultConverter Float8 Ext static_cast bind].
  rewrite !std_max_same, !std_min_same.
  cbn [eqb ltb lit add sub mul div B64.arith].
  change (B64.of_Q 0) with 0%float. change (B64.of_Q 60) with 60%float.
  change (B64.of_Q 120) with 120%float. change (B64.of_Q 240) with 240%float.
  change (B64.of_Q 360) with 360%float.
  set (z := (v - v)%float).
  set (S := if ((v + v) / B64.of_Q 2 <? B64.of_Q (5 # 10))%float
            then (z / (v + v))%float else (z / (B64.of_Q 2 - (v + v)))%float).
  set (H0 := if (v =? v)%float then (z * 60 / S)%float
             else if (v =? v)%float then (120 + z * 60 / S)%float
             else (240 + z * 60 / S)%float).
  assert (Hz : Prim2SF z = S754_zero false \/ Prim2SF z = S754_nan) by apply sub_same_cases.
  assert (HS : (exists s, Prim2SF S = S754_zero s) \/ Prim2SF S = S754_nan).
  { unfold S. destruct (_ <? _)%float; apply zero_div_any; exact Hz. }
  assert (Hq : Prim2SF (z * 60 / S)%float = S754_nan).
  { apply div_zero_nan; [apply zero_times_60; exact Hz|exact HS]. }
  assert (N : Prim2SF H0 = S754_nan).
  { unfold H0. destruct (v =? v)%float; [exact Hq|]. apply add_nan_r, Hq. }
  exists (if (H0 <? 0)%float then (H0 + 360)%float else H0), S, ((v + v) / B64.of_Q 2)%float.
  split; [reflexivity|].
  rewrite (@ltb_nan_l H0 0%float N). apply is_nan_spec. exact N.
Qed.

Lemma row_nan (c1 c2 c3 R G B : float) :
  PrimFloat.is_nan R = true \/ PrimFloat.is_nan G = true \/ PrimFloat.is_nan B = true ->
  PrimFloat.is_nan (c1 * R + c2 * G + c3 * B)%float = true.
Proof.
  intros H. apply is_nan_spec.
  destruct H as [H|[H|H]]; apply is_nan_spec in H.
  - apply add_nan_l, add_nan_l, mul_nan_r, H.
  - apply add_nan_l, add_nan_r, mul_nan_r, H.
  - apply add_nan_r, mul_nan_r, H.
Qed.

(** X17: with double storage a NaN in any channel of the input makes
    the result of RgbToGray and every channel of the results of
    RgbToXyz and XyzToRgb a NaN: none of them filters it. *)
Theorem nan_goes_through_linear_converters (R G B : float) :
  PrimFloat.is_nan R = true \/ PrimFloat.is_nan G = true \/ PrimFloat.is_nan B = true ->
  (exists y, RgbToGray Float8 (mkColor R G B) = Ok y /\ PrimFloat.is_nan y = true) /\
  (exists X Y Z, RgbToXyz Float8 (mkColor R G B) = Ok (mkColor X Y Z) /\
                 PrimFloat.is_nan X = true /\ PrimFloat.is_nan Y = true /\
                 PrimFloat.is_nan Z = true) /\
  (exists X Y Z, XyzToRgb Float8 (mkColor R G B) = Ok (mkColor X Y Z) /\
                 PrimFloat.is_nan X = true /\ PrimFloat.is_nan Y = true /\
                 PrimFloat.is_nan Z = true).
Proof.
  intros H. split; [|split].
  - eexists. split; [reflexivity|]. apply row_nan, H.
  - eexists _, _, _. split; [reflexivity|]. repeat split; apply row_nan, H.
  - eexists _, _, _. split; [reflexivity|]. repeat split; apply row_nan, H.
Qed.

Lemma nan_goes_through_linear_converters_witness :
  (exists y, RgbToGray Float8 (mkColor PrimFloat.nan 0 0)%float = Ok y /\
             PrimFloat.is_nan y = true) /\
  (exists X Y Z, RgbToXyz Float8 (mkColor PrimFloat.nan 0 0)%float = Ok (mkColor X Y Z) /\
                 PrimFloat.is_nan X = true /\ PrimFloat.is_nan Y = true /\
                 PrimFloat.is_nan Z = true) /\
  (exists X Y Z, XyzToRgb Float8 (mkColor PrimFloat.nan 0 0)%float = Ok (mkColor X Y Z) /\
                 PrimFloat.is_nan X = true /\ PrimFloat.is_nan Y = true /\
                 PrimFloat.is_nan Z = true).
Proof.
  apply nan_goes_through_linear_converters. left. reflexivity.
Defined.

(** X16: with double storage the hue RgbToHsv and RgbToHsl return for a
    gray pixel (v,v,v) is a NaN for every double v, finite or not: the
    difference of two equal channels is zero, the saturation is zero
    (or NaN), and the hue is 0/0. *)
Theorem gray_hue_is_nan_in_double :
  forall v : float,
    (exists H S : float,
        RgbToHsv Float8 (gray_pixel v) = Ok (mkColor H S v) /\
        PrimFloat.is_nan H = true) /\
    (exists H S L : float,
        RgbToHsl Float8 (gray_pixel v) = Ok (mkColor H S L) /\
        PrimFloat.is_nan H = true).
Proof.
  intros v. split; [apply gray_hsv_hue_is_nan|apply gray_hsl_hue_is_nan].
Qed.

(** ** XYZ to RGB and back *)

Section ReverseRoundTrip.

Local Open Scope R_scope.

Variable rnd : R -> R.
Hypothesis Hrnd : standard_model rnd.

Ltac literal_bound := unfold bounded, Q2R; cbn [Qnum Qden]; lra.

Ltac step := unfold E_simple; lra.

Lemma reverse_roundtrip_standard_model (x y z : R) :
  unit_range x -> unit_range y -> unit_range z ->
  exists x' y' z' : R,
    (p <- XyzToRgb (AR := R_arith rnd) (Real rnd) (mkColor x y z) ;;
     RgbToXyz (AR := R_arith rnd) (Real rnd) p) = Ok (mkColor x' y' z') /\
    Rabs (x' - x) <= Q2R tolerance /\
    Rabs (y' - y) <= Q2R tolerance /\
    Rabs (z' - z) <= Q2R tolerance.
Proof.
  intros Hx Hy Hz.
  exists (dot rnd (412453 # 1000000) (357580 # 1000000) (180423 # 1000000)
              (dot rnd (3240479 # 1000000) (-153715 # 100000) (-498535 # 1000000) x y z)
              (dot rnd (-969256 # 1000000) (1875991 # 1000000) (41556 # 1000000) x y z)
              (dot rnd (55648 # 1000000) (-204043 # 1000000) (1057311 # 1000000) x y z)),
         (dot rnd (212671 # 1000000) (715160 # 1000000) (72169 # 1000000)
              (dot rnd (3240479 # 1000000) (-153715 # 100000) (-498535 # 1000000) x y z)
              (dot rnd (-969256 # 1000000) (1875991 # 1000000) (41556 # 1000000) x y z)
              (dot rnd (55648 # 1000000) (-204043 # 1000000) (1057311 # 1000000) x y z)),
         (dot rnd (19334 # 1000000) (119193 # 1000000) (950227 # 1000000)
              (dot rnd (3240479 # 1000000) (-153715 # 100000) (-498535 # 1000000) x y z)
              (dot rnd (-969256 # 1000000) (1875991 # 1000000) (41556 # 1000000) x y z)
              (dot rnd (55648 # 1000000) (-204043 # 1000000) (1057311 # 1000000) x y z)).
  split; [reflexivity|].
  assert (Tx : track x x 0 1) by (apply track_exact; unfold bounded, unit_range in *; lra).
  assert (Ty : track y y 0 1) by (apply track_exact; unfold bounded, unit_range in *; lra).
  assert (Tz : track z z 0 1) by (apply track_exact; unfold bounded, unit_range in *; lra).
  assert (Tr := @track_dot_num rnd Hrnd (3240479 # 1000000) (-153715 # 100000) (-498535 # 1000000) (3240479 / 1000000) (153715 / 100000) (498535 / 1000000)
                 _ _ _ _ _ _ _ _ _ _ _ _ (1945 / 10000000000) (9223 / 100000000000) (2992 / 100000000000) (389 / 1000000000) (1845 / 10000000000) (5984 / 100000000000)
                 (8602 / 10000000000) (1237 / 1000000000)
                 ltac:(literal_bound) ltac:(literal_bound) ltac:(literal_bound)
                 Tx Ty Tz
                 ltac:(step) ltac:(step) ltac:(step) ltac:(step) ltac:(step) ltac:(step) ltac:(step) ltac:(step)).
  assert (Tg := @track_dot_num rnd Hrnd (-969256 # 1000000) (1875991 # 1000000) (41556 # 1000000) (969256 / 1000000) (1875991 / 1000000) (41556 / 1000000)
                 _ _ _ _ _ _ _ _ _ _ _ _ (5816 / 100000000000) (1126 / 10000000000) (2495 / 1000000000000) (1164 / 10000000000) (2252 / 10000000000) (499 / 100000000000)
                 (5124 / 10000000000) (6906 / 10000000000)
                 ltac:(literal_bound) ltac:(literal_bound) ltac:(literal_bound)
                 Tx Ty Tz
                 ltac:(step) ltac:(step) ltac:(step) ltac:(step) ltac:(step) ltac:(step) ltac:(step) ltac:(step)).
  assert (Tb := @track_dot_num rnd Hrnd (55648 # 1000000) (-204043 # 1000000) (1057311 # 1000000) (55648 / 1000000) (204043 / 1000000) (1057311 / 1000000)
                 _ _ _ _ _ _ _ _ _ _ _ _ (334 / 100000000000) (1225 / 100000000000) (6344 / 100000000000) (668 / 100000000000) (245 / 10000000000) (1269 / 10000000000)
                 (4677 / 100000000000) (2527 / 10000000000)
                 ltac:(literal_bound) ltac:(literal_bound) ltac:(literal_bound)
                 Tx Ty Tz
                 ltac:(step) ltac:(step) ltac:(step) ltac:(step) ltac:(step) ltac:(step) ltac:(step) ltac:(step)).
  assert (AX := @track_dot_num rnd Hrnd (412453 # 1000000) (357580 # 1000000) (180423 # 1000000) (412453 / 1000000) (35758 / 100000) (180423 / 1000000)
                 _ _ _ _ _ _ _ _ _ _ _ _ (2475 / 100000000000) (2146 / 100000000000) (1083 / 100000000000) (7714 / 10000000000) (3709 / 10000000000) (7412 / 100000000000)
                 (1335 / 1000000000) (1616 / 1000000000)
                 ltac:(literal_bound) ltac:(literal_bound) ltac:(literal_bound)
                 Tr Tg Tb
                 ltac:(step) ltac:(step) ltac:(step) ltac:(step) ltac:(step) ltac:(step) ltac:(step) ltac:(step)).
  assert (AY := @track_dot_num rnd Hrnd (212671 # 1000000) (715160 # 1000000) (72169 # 1000000) (212671 / 1000000) (71516 / 100000) (72169 / 1000000)
                 _ _ _ _ _ _ _ _ _ _ _ _ (1277 / 100000000000) (4292 / 100000000000) (4332 / 1000000000000) (3978 / 10000000000) (7417 / 10000000000) (2965 / 100000000000)
                 (1331 / 1000000000) (1558 / 1000000000)
                 ltac:(literal_bound) ltac:(literal_bound) ltac:(literal_bound)
                 Tr Tg Tb
                 ltac:(step) ltac:(step) ltac:(step) ltac:(step) ltac:(step) ltac:(step) ltac:(step) ltac:(step)).
  assert (AZ := @track_dot_num rnd Hrnd (19334 # 1000000) (119193 # 1000000) (950227 # 1000000) (19334 / 1000000) (119193 / 1000000) (950227 / 1000000)
                 _ _ _ _ _ _ _ _ _ _ _ _ (1162 / 1000000000000) (7153 / 1000000000000) (5702 / 100000000000) (3617 / 100000000000) (1237 / 10000000000) (3904 / 10000000000)
                 (1867 / 10000000000) (679 / 1000000000)
                 ltac:(literal_bound) ltac:(literal_bound) ltac:(literal_bound)
                 Tr Tg Tb
                 ltac:(step) ltac:(step) ltac:(step) ltac:(step) ltac:(step) ltac:(step) ltac:(step) ltac:(step)).
  destruct AX as (AX & _). destruct AY as (AY & _). destruct AZ as (AZ & _).
  unfold approx in AX, AY, AZ. unfold tolerance, Q2R, unit_range in *. cbn [Qnum Qden] in *.
  repeat split; apply Rabs_le; lra.
Qed.

End ReverseRoundTrip.


(** X18: in floating-point storage, in any arithmetic within the
    standard model of rounding, XyzToRgb followed by RgbToXyz returns
    every XYZ pixel of the unit cube within 1/100000 of itself, channel
    by channel: the two matrices are inverse to each other in this
    order too. *)
Theorem xyz_reverse_roundtrip_tolerance :
  forall rnd : R -> R,
    standard_model rnd ->
    forall x y z : R,
      unit_range x -> unit_range y -> unit_range z ->
      exists x' y' z' : R,
        (p <- XyzToRgb (AR := R_arith rnd) (Real rnd) (mkColor x y z) ;;
         RgbToXyz (AR := R_arith rnd) (Real rnd) p) = Ok (mkColor x' y' z') /\
        (Rabs (x' - x) <= Q2R tolerance)%R /\
        (Rabs (y' - y) <= Q2R tolerance)%R /\
        (Rabs (z' - z) <= Q2R tolerance)%R.
Proof.
  intros rnd Hrnd x y z Hx Hy Hz.
  exact (reverse_roundtrip_standard_model Hrnd Hx Hy Hz).
Qed.

Lemma xyz_reverse_roundtrip_tolerance_witness :
  exists x' y' z' : R,
    (p <- XyzToRgb (AR := R_arith inflate) (Real inflate) (mkColor (1 / 2) (1 / 4) 1)%R ;;
     RgbToXyz (AR := R_arith inflate) (Real inflate) p) = Ok (mkColor x' y' z') /\
    (Rabs (x' - 1 / 2) <= Q2R tolerance)%R /\
    (Rabs (y' - 1 / 4) <= Q2R tolerance)%R /\
    (Rabs (z' - 1) <= Q2R tolerance)%R.
Proof.
  apply (@xyz_reverse_roundtrip_tolerance inflate inflate_standard_model);
    unfold unit_range; lra.
Defined.

(** ** Luv in rounded arithmetic *)

Section LuvRounded.
Local Open Scope R_scope.
Variable rnd : R -> R.
Hypothesis Hrnd : standard_model rnd.
Variable pow : R -> R -> R.
Hypothesis Hpow : pow_near_cube_root pow.

(** The exponent [1. / 3] as the arithmetic computes it. *)
Lemma third_rounded : Rabs (rnd (rnd (Q2R 1) / rnd (Q2R 3)) - 1 / 3) <= 1 / 1000000.
Proof.
  assert (E1 : Q2R 1 = 1) by (unfold Q2R; cbn; lra).
  assert (E3 : Q2R 3 = 3) by (unfold Q2R; cbn; lra).
  pose proof (rnd_lit Hrnd E1 ltac:(lra)) as H1.
  pose proof (rnd_lit Hrnd E3 ltac:(lra)) as H3.
  pose proof (@div_between (rnd (Q2R 1)) (rnd (Q2R 3)) 1 3
                (1 - 7 / 100000000) (1 + 7 / 100000000)
                (1 - 7 / 100000000) (1 + 7 / 100000000)
                (1 - 15 / 100000000) (1 + 15 / 100000000)
                ltac:(lra) ltac:(lra) ltac:(lra) ltac:(lra) ltac:(lra)
                H1 H3 ltac:(lra) ltac:(lra)) as Hq.
  pose proof (@rnd_near rnd Hrnd (rnd (Q2R 1) / rnd (Q2R 3)) ltac:(lra)) as He.
  apply Rabs_le. lra.
Qed.

(** The cube root of a Y coordinate of the bright branch. *)
Lemma cube_between (c y : R) :
  0 < c -> c * c * c = y -> 8855 / 1000000 <= y <= 1 + 1 / 1000000 ->
  2068 / 10000 <= c <= 1 + 1 / 1000000.
Proof.
  intros Hc Ec Hy. split.
  - apply Rnot_lt_le. intros Hlt.
    assert (c * c <= 2068 / 10000 * (2068 / 10000)) by nra.
    assert (c * c * c <= 2068 / 10000 * (2068 / 10000) * (2068 / 10000)) by nra.
    lra.
  - apply Rnot_lt_le. intros Hlt.
    assert (1 <= c * c) by nra.
    assert (c <= c * c * c) by nra.
    lra.
Qed.

(** The lightness of Luv from a Y coordinate of the range of RgbToXyz. *)
Lemma luv_lightness_rounded (Y : R) :
  - (1 / 1000000) <= Y <= 1 + 1 / 1000000 ->
  - (1 / 1000) <= lightness (AR := R_arith rnd) pow Y <= 100 + 1 / 100.
Proof.
  intros HY. unfold lightness. cbn [ltb lit sub mul div R_arith].
  assert (Et : Q2R (8856 # 1000000) = 8856 / 1000000) by (unfold Q2R; cbn; lra).
  assert (E116 : Q2R 116 = 116) by (unfold Q2R; cbn; lra).
  assert (E16 : Q2R 16 = 16) by (unfold Q2R; cbn; lra).
  assert (E903 : Q2R (9033 # 10) = 9033 / 10) by (unfold Q2R; cbn; lra).
  pose proof (rnd_lit Hrnd Et ltac:(lra)) as Ht.
  pose proof (rnd_lit Hrnd E116 ltac:(lra)) as H116.
  pose proof (rnd_lit Hrnd E16 ltac:(lra)) as H16.
  pose proof (rnd_lit Hrnd E903 ltac:(lra)) as H903.
  set (thr := rnd (Q2R (8856 # 1000000))) in *.
  set (c116 := rnd (Q2R 116)) in *. set (c16 := rnd (Q2R 16)) in *.
  set (c903 := rnd (Q2R (9033 # 10))) in *.
  destruct (Rlt_dec thr Y) as [B|B].
  - pose proof Hpow as Hpw0. unfold pow_near_cube_root in Hpw0.
    destruct (Hpw0 Y (rnd (rnd (Q2R 1) / rnd (Q2R 3))) ltac:(lra) third_rounded)
      as (c & Hc & Ec & Hp). clear Hpw0.
    pose proof (@cube_between c Y Hc Ec ltac:(lra)) as Hcb.
    apply Rabs_bound in Hp.
    set (pw := pow Y (rnd (rnd (Q2R 1) / rnd (Q2R 3)))) in *.
    assert (Hpw : 2067 / 10000 <= pw <= 1 + 3 / 100000) by lra.
    assert (Hm : 2397 / 100 <= c116 * pw <= 116 + 5 / 1000) by nra.
    pose proof (@rnd_near rnd Hrnd (c116 * pw) ltac:(lra)) as Hm'.
    pose proof (@rnd_near rnd Hrnd (rnd (c116 * pw) - c16) ltac:(lra)) as Hs.
    lra.
  - assert (Hm : - (1 / 1100) <= c903 * Y <= 8 + 1 / 1000) by nra.
    pose proof (rnd_error Hrnd (c903 * Y)) as He.
    assert (Ha : Rabs (c903 * Y) <= 9) by (apply Rabs_le; lra).
    apply Rabs_bound in He. lra.
Qed.

Lemma luv_lightness_unit_cube (r g b : R) :
  unit_range r -> unit_range g -> unit_range b ->
  exists L u v : R,
    RgbToLuv (AR := R_arith rnd) (Real rnd) pow (mkColor r g b) = Ok (mkColor L u v) /\
    - (1 / 1000) <= L <= 100 + 1 / 100.
Proof.
  intros Hr Hg Hb.
  destruct (xyz_rounded Hrnd Hr Hg Hb) as (X & Y & Z & E & HX & HY & HZ).
  unfold RgbToLuv.
  change (RgbToXyz Ext (map_color DefaultConverter (mkColor r g b)))
    with (RgbToXyz (AR := R_arith rnd) (Real rnd) (mkColor r g b)).
  rewrite E. cbn [bind c0 c1 c2]. unfold To.
  cbn [Real Ext static_cast bind].
  eexists _, _, _. split; [reflexivity|].
  apply luv_lightness_rounded.
  apply Rabs_bound in HY. unfold unit_range in *. lra.
Qed.

(** A literal times a value known up to a factor. *)
Lemma times_lit_near (c : Q) (k x x0 la ha : R) :
  Q2R c = k -> 1 / 10000 <= k -> 0 <= x0 -> 19 / 100000 <= k * x0 ->
  99 / 100 <= la -> la <= 1 -> 1 <= ha -> ha <= 101 / 100 ->
  la * x0 <= x <= ha * x0 ->
  (la - 16 / 100000000) * (k * x0) <= rnd (rnd (Q2R c) * x)
  <= (ha + 16 / 100000000) * (k * x0).
Proof.
  intros Ek Hk Hx0 P Hla Hla1 Hha1 Hha Hx.
  pose proof (rnd_lit Hrnd Ek ltac:(lra)) as Hc.
  pose proof (@mul_between (rnd (Q2R c)) x k x0
                (1 - 7 / 100000000) (1 + 7 / 100000000) la ha
                ((1 - 7 / 100000000) * la) ((1 + 7 / 100000000) * ha)
                ltac:(lra) ltac:(lra) ltac:(lra) ltac:(lra)
                Hc Hx ltac:(lra) ltac:(lra)) as Hm.
  set (P0 := k * x0) in *. clearbody P0.
  assert (Hlo : 18 / 100000 <= rnd (Q2R c) * x) by nra.
  pose proof (@rnd_near rnd Hrnd (rnd (Q2R c) * x) ltac:(lra)) as Hr.
  set (q := rnd (Q2R c) * x) in *. clearbody q.
  split; nra.
Qed.

(** A row with positive coefficients on a pixel with positive
    channels: the relative error is at most 31/10^8. *)
Lemma dot_near (c1 c2 c3 : Q) (k1 k2 k3 x y z : R) :
  Q2R c1 = k1 -> Q2R c2 = k2 -> Q2R c3 = k3 ->
  19 / 1000 <= k1 -> 19 / 1000 <= k2 -> 19 / 1000 <= k3 ->
  1 / 100 <= x -> 1 / 100 <= y -> 1 / 100 <= z ->
  (1 - 32 / 100000000) * (k1 * x + k2 * y + k3 * z)
  <= dot rnd c1 c2 c3 x y z
  <= (1 + 32 / 100000000) * (k1 * x + k2 * y + k3 * z).
Proof.
  intros E1 E2 E3 H1 H2 H3 Hx Hy Hz.
  assert (P1 : 19 / 100000 <= k1 * x) by nra.
  assert (P2 : 19 / 100000 <= k2 * y) by nra.
  assert (P3 : 19 / 100000 <= k3 * z) by nra.
  pose proof (@times_lit_near c1 k1 x x 1 1 E1 ltac:(lra) ltac:(lra) P1
                ltac:(lra) ltac:(lra) ltac:(lra) ltac:(lra) ltac:(lra)) as T1.
  pose proof (@times_lit_near c2 k2 y y 1 1 E2 ltac:(lra) ltac:(lra) P2
                ltac:(lra) ltac:(lra) ltac:(lra) ltac:(lra) ltac:(lra)) as T2.
  pose proof (@times_lit_near c3 k3 z z 1 1 E3 ltac:(lra) ltac:(lra) P3
                ltac:(lra) ltac:(lra) ltac:(lra) ltac:(lra) ltac:(lra)) as T3.
  unfold dot.
  set (t1 := rnd (rnd (Q2R c1) * x)) in *.
  set (t2 := rnd (rnd (Q2R c2) * y)) in *.
  set (t3 := rnd (rnd (Q2R c3) * z)) in *.
  set (a1 := k1 * x) in *. set (a2 := k2 * y) in *. set (a3 := k3 * z) in *.
  clearbody t1 t2 t3 a1 a2 a3.
  pose proof (@rnd_near rnd Hrnd (t1 + t2) ltac:(lra)) as S12.
  pose proof (@rnd_near rnd Hrnd (rnd (t1 + t2) + t3) ltac:(lra)) as S123.
  set (s12 := rnd (t1 + t2)) in *. clearbody s12.
  set (s := rnd (s12 + t3)) in *. clearbody s.
  split; nra.
Qed.

Lemma product_within (a b A B : R) :
  - A <= a <= A -> - B <= b <= B -> - (A * B) <= a * b <= A * B.
Proof. intros Ha Hb. split; nra. Qed.

Lemma rnd_magnitude (x M : R) :
  - M <= x <= M ->
  - (M * (1 + 6 / 100000000) + / 1000000000000) <= rnd x
  <= M * (1 + 6 / 100000000) + / 1000000000000.
Proof.
  intros Hx. pose proof (rnd_error Hrnd x) as H.
  assert (Ha : Rabs x <= M) by (apply Rabs_le; lra).
  apply Rabs_bound in H. lra.
Qed.

(** A gray pixel: X, Y and Z are 0.950456 v, v and 1.088754 v up to
    32/10^8, so the chromaticity is that of the white point of the
    matrix up to 12/10^7, whatever the level. *)
Lemma luv_gray_rounded (v : R) :
  1 / 100 <= v <= 1 ->
  exists L u w : R,
    RgbToLuv (AR := R_arith rnd) (Real rnd) pow (gray_pixel v) = Ok (mkColor L u w) /\
    - (1 / 1000) <= L <= 100 + 1 / 100 /\
    Rabs u <= 15 / 100 /\
    Rabs w <= 5 / 100.
Proof.
  intros Hv.
  set (X := dot rnd (412453 # 1000000) (357580 # 1000000) (180423 # 1000000) v v v).
  set (Y := dot rnd (212671 # 1000000) (715160 # 1000000) (72169 # 1000000) v v v).
  set (Z := dot rnd (19334 # 1000000) (119193 # 1000000) (950227 # 1000000) v v v).
  set (L := lightness (AR := R_arith rnd) pow Y).
  set (den := rnd (rnd (X + rnd (rnd (Q2R 15) * Y)) + rnd (rnd (Q2R 3) * Z))).
  set (u_ := rnd (rnd (rnd (Q2R 4) * X) / den)).
  set (v_ := rnd (rnd (rnd (Q2R 9) * Y) / den)).
  set (L13 := rnd (rnd (Q2R 13) * L)).
  set (u := rnd (L13 * rnd (u_ - rnd (Q2R (19793943 # 100000000))))).
  set (w := rnd (L13 * rnd (v_ - rnd (Q2R (46831096 # 100000000))))).
  exists L, u, w. split; [reflexivity|].
  assert (HX := @dot_near (412453 # 1000000) (357580 # 1000000) (180423 # 1000000)
                  (412453 / 1000000) (35758 / 100000) (180423 / 1000000) v v v
                  ltac:(unfold Q2R; cbn; lra) ltac:(unfold Q2R; cbn; lra)
                  ltac:(unfold Q2R; cbn; lra)
                  ltac:(lra) ltac:(lra) ltac:(lra) ltac:(lra) ltac:(lra) ltac:(lra)).
  assert (HY := @dot_near (212671 # 1000000) (715160 # 1000000) (72169 # 1000000)
                  (212671 / 1000000) (71516 / 100000) (72169 / 1000000) v v v
                  ltac:(unfold Q2R; cbn; lra) ltac:(unfold Q2R; cbn; lra)
                  ltac:(unfold Q2R; cbn; lra)
                  ltac:(lra) ltac:(lra) ltac:(lra) ltac:(lra) ltac:(lra) ltac:(lra)).
  assert (HZ := @dot_near (19334 # 1000000) (119193 # 1000000) (950227 # 1000000)
                  (19334 / 1000000) (119193 / 1000000) (950227 / 1000000) v v v
                  ltac:(unfold Q2R; cbn; lra) ltac:(unfold Q2R; cbn; lra)
                  ltac:(unfold Q2R; cbn; lra)
                  ltac:(lra) ltac:(lra) ltac:(lra) ltac:(lra) ltac:(lra) ltac:(lra)).
  fold X in HX. fold Y in HY. fold Z in HZ.
  assert (HX' : (1 - 32 / 100000000) * (950456 / 1000000 * v) <= X
                <= (1 + 32 / 100000000) * (950456 / 1000000 * v)) by lra.
  assert (HY' : (1 - 32 / 100000000) * v <= Y <= (1 + 32 / 100000000) * v) by lra.
  assert (HZ' : (1 - 32 / 100000000) * (1088754 / 1000000 * v) <= Z
                <= (1 + 32 / 100000000) * (1088754 / 1000000 * v)) by lra.
  clear HX HY HZ.
  (* lightness *)
  assert (HL : - (1 / 1000) <= L <= 100 + 1 / 100).
  { apply luv_lightness_rounded. lra. }
  clearbody X Y Z L.
  (* numerators and denominator *)
  assert (E4 : Q2R 4 = 4) by (unfold Q2R; cbn; lra).
  assert (E9 : Q2R 9 = 9) by (unfold Q2R; cbn; lra).
  assert (E15 : Q2R 15 = 15) by (unfold Q2R; cbn; lra).
  assert (E3 : Q2R 3 = 3) by (unfold Q2R; cbn; lra).
  assert (E13 : Q2R 13 = 13) by (unfold Q2R; cbn; lra).
  pose proof (@times_lit_near 4 4 X (950456 / 1000000 * v)
                (1 - 32 / 100000000) (1 + 32 / 100000000) E4
                ltac:(lra) ltac:(lra) ltac:(lra)
                ltac:(lra) ltac:(lra) ltac:(lra) ltac:(lra) HX') as N4.
  pose proof (@times_lit_near 9 9 Y v
                (1 - 32 / 100000000) (1 + 32 / 100000000) E9
                ltac:(lra) ltac:(lra) ltac:(lra)
                ltac:(lra) ltac:(lra) ltac:(lra) ltac:(lra) HY') as N9.
  pose proof (@times_lit_near 15 15 Y v
                (1 - 32 / 100000000) (1 + 32 / 100000000) E15
                ltac:(lra) ltac:(lra) ltac:(lra)
                ltac:(lra) ltac:(lra) ltac:(lra) ltac:(lra) HY') as N15.
  pose proof (@times_lit_near 3 3 Z (1088754 / 1000000 * v)
                (1 - 32 / 100000000) (1 + 32 / 100000000) E3
                ltac:(lra) ltac:(lra) ltac:(lra)
                ltac:(lra) ltac:(lra) ltac:(lra) ltac:(lra) HZ') as N3.
  set (n4 := rnd (rnd (Q2R 4) * X)) in *.
  set (n9 := rnd (rnd (Q2R 9) * Y)) in *.
  set (t15 := rnd (rnd (Q2R 15) * Y)) in *.
  set (t3 := rnd (rnd (Q2R 3) * Z)) in *.
  pose proof (@rnd_near rnd Hrnd (X + t15) ltac:(lra)) as S1.
  pose proof (@rnd_near rnd Hrnd (rnd (X + t15) + t3) ltac:(lra)) as S2.
  fold den in S2.
  set (den0 := 19216718 / 1000000 * v).
  assert (Hden : (1 - 64 / 100000000) * den0 <= den <= (1 + 64 / 100000000) * den0)
    by (unfold den0; lra).
  assert (Hn4 : (1 - 48 / 100000000) * (3801824 / 1000000 * v) <= n4
                <= (1 + 48 / 100000000) * (3801824 / 1000000 * v)) by lra.
  assert (Hn9 : (1 - 48 / 100000000) * (9 * v) <= n9
                <= (1 + 48 / 100000000) * (9 * v)) by lra.
  clearbody n4 n9 t15 t3 den. clear N4 N9 N15 N3 S1 S2.
  pose proof (@div_between n4 den (3801824 / 1000000 * v) den0
                (1 - 48 / 100000000) (1 + 48 / 100000000)
                (1 - 64 / 100000000) (1 + 64 / 100000000)
                (1 - 113 / 100000000) (1 + 113 / 100000000)
                ltac:(unfold den0; lra) ltac:(lra) ltac:(lra) ltac:(lra) ltac:(lra)
                Hn4 Hden ltac:(lra) ltac:(lra)) as Hu.
  pose proof (@div_between n9 den (9 * v) den0
                (1 - 48 / 100000000) (1 + 48 / 100000000)
                (1 - 64 / 100000000) (1 + 64 / 100000000)
                (1 - 113 / 100000000) (1 + 113 / 100000000)
                ltac:(unfold den0; lra) ltac:(lra) ltac:(lra) ltac:(lra) ltac:(lra)
                Hn9 Hden ltac:(lra) ltac:(lra)) as Hw.
  assert (Eu : 3801824 / 1000000 * v / den0 = 3801824 / 19216718) by (unfold den0; field; lra).
  assert (Ew : 9 * v / den0 = 9000000 / 19216718) by (unfold den0; field; lra).
  rewrite Eu in Hu. rewrite Ew in Hw.
  pose proof (@rnd_near rnd Hrnd (n4 / den) ltac:(lra)) as Hu'.
  pose proof (@rnd_near rnd Hrnd (n9 / den) ltac:(lra)) as Hw'.
  fold u_ in Hu'. fold v_ in Hw'.
  assert (Eun : Q2R (19793943 # 100000000) = 19793943 / 100000000) by (unfold Q2R; cbn; lra).
  assert (Evn : Q2R (46831096 # 100000000) = 46831096 / 100000000) by (unfold Q2R; cbn; lra).
  pose proof (rnd_lit Hrnd Eun ltac:(lra)) as Hun.
  pose proof (rnd_lit Hrnd Evn ltac:(lra)) as Hvn.
  set (un := rnd (Q2R (19793943 # 100000000))) in *.
  set (vn := rnd (Q2R (46831096 # 100000000))) in *.
  assert (Hdu : - (1003 / 10000000) <= u_ - un <= 1003 / 10000000) by lra.
  assert (Hdw : - (32 / 1000000) <= v_ - vn <= 32 / 1000000) by lra.
  pose proof (rnd_magnitude Hdu) as Hdu'.
  pose proof (rnd_magnitude Hdw) as Hdw'.
  pose proof (rnd_lit Hrnd E13 ltac:(lra)) as H13.
  assert (HL13 : - (130014 / 100) <= rnd (Q2R 13) * L <= 130014 / 100) by nra.
  pose proof (rnd_magnitude HL13) as HL13'. fold L13 in HL13'.
  clearbody u_ v_ un vn L13.
  assert (Au : - (130015 / 100) <= L13 <= 130015 / 100) by lra.
  assert (Bu : - (1004 / 10000000) <= rnd (u_ - un) <= 1004 / 10000000) by lra.
  assert (Bw : - (33 / 1000000) <= rnd (v_ - vn) <= 33 / 1000000) by lra.
  pose proof (product_within Au Bu) as Pu.
  pose proof (product_within Au Bw) as Pw.
  pose proof (rnd_magnitude Pu) as Ru. pose proof (rnd_magnitude Pw) as Rw.
  fold u in Ru. fold w in Rw.
  split; [exact HL|]. split; apply Rabs_le; lra.
Qed.

End LuvRounded.

(** The power function of the reals is such a [pow]. *)

Section RealPower.
Local Open Scope R_scope.

Lemma Rpower_cube (y : R) : 0 < y -> Rpower y (1 / 3) * Rpower y (1 / 3) * Rpower y (1 / 3) = y.
Proof.
  intros Hy.
  replace (Rpower y (1 / 3) * Rpower y (1 / 3) * Rpower y (1 / 3))
    with (Rpower y (1 / 3) ^ 3) by ring.
  rewrite <- Rpower_pow by (unfold Rpower; apply exp_pos).
  rewrite Rpower_mult.
  replace (1 / 3 * INR 3) with 1 by (simpl; field).
  apply Rpower_1. exact Hy.
Qed.

Lemma exp_8 : 256 <= exp 8.
Proof.
  pose proof (exp_ineq1_le 1) as H1.
  assert (H2 : 4 <= exp 2).
  { replace 2 with (1 + 1) by ring. rewrite exp_plus. nra. }
  assert (H4 : 16 <= exp 4).
  { replace 4 with (2 + 2) by ring. rewrite exp_plus. nra. }
  replace 8 with (4 + 4) by ring. rewrite exp_plus. nra.
Qed.

Lemma ln_monotone (x y : R) : 0 < x -> x <= y -> ln x <= ln y.
Proof.
  intros Hx [H | ->]; [|lra]. apply Rlt_le, ln_increasing; assumption.
Qed.

Lemma ln_between (y : R) : 1 / 200 <= y <= 2 -> -8 <= ln y <= 1.
Proof.
  intros Hy. split.
  - rewrite <- (ln_exp (-8)). apply ln_monotone; [apply exp_pos|].
    pose proof exp_8 as H8. pose proof (exp_pos (-8)) as Hp.
    assert (E : exp (-8) * exp 8 = 1).
    { rewrite <- exp_plus. replace (-8 + 8) with 0 by ring. apply exp_0. }
    nra.
  - rewrite <- (ln_exp 1). apply ln_monotone; [lra|].
    pose proof (exp_ineq1_le 1). lra.
Qed.

Lemma exp_small (d : R) :
  - (8 / 1000000) <= d <= 8 / 1000000 ->
  1 - 9 / 1000000 <= exp d <= 1 + 9 / 1000000.
Proof.
  intros Hd.
  pose proof (exp_ineq1_le d) as H1. pose proof (exp_ineq1_le (- d)) as H2.
  assert (E : exp d * exp (- d) = 1).
  { rewrite <- exp_plus. replace (d + - d) with 0 by ring. apply exp_0. }
  pose proof (exp_pos d). split; nra.
Qed.

Lemma Rpower_near_cube_root : pow_near_cube_root Rpower.
Proof.
  intros y e Hy He.
  assert (Hy0 : 0 < y) by lra.
  exists (Rpower y (1 / 3)).
  split; [unfold Rpower; apply exp_pos|]. split; [apply Rpower_cube, Hy0|].
  pose proof (Rpower_cube Hy0) as Ec.
  assert (Hc : 0 < Rpower y (1 / 3)) by (unfold Rpower; apply exp_pos).
  set (c := Rpower y (1 / 3)) in *.
  assert (Hc2 : c <= 126 / 100).
  { apply Rnot_lt_le. intros Hlt.
    assert (126 / 100 * (126 / 100) <= c * c) by nra.
    assert (126 / 100 * (126 / 100) * (126 / 100) <= c * c * c) by nra. lra. }
  replace e with (1 / 3 + (e - 1 / 3)) by ring.
  rewrite Rpower_plus. fold c.
  apply Rabs_bound in He.
  pose proof (ln_between Hy) as Hl.
  assert (Hd : - (8 / 1000000) <= (e - 1 / 3) * ln y <= 8 / 1000000) by nra.
  pose proof (exp_small Hd) as Hx.
  unfold Rpower at 1. set (x := exp ((e - 1 / 3) * ln y)) in *. clearbody x c.
  apply Rabs_le. split; nra.
Qed.

End RealPower.

(** X19: in floating-point storage, in any arithmetic within the
    standard model of rounding and with a [pow] that is within 2/100000
    of the cube root for an exponent within a millionth of 1/3, the
    lightness RgbToLuv returns for a pixel of the unit cube is between
    0 and 100, up to 1/1000 below and 1/100 above.  (Nothing is said of
    u and v, which are 0/0 on black.) *)
Theorem luv_lightness_in_rounded_arithmetic :
  forall (rnd : R -> R) (pow : R -> R -> R),
    standard_model rnd -> pow_near_cube_root pow ->
    forall r g b : R,
      unit_range r -> unit_range g -> unit_range b ->
      exists L u v : R,
        RgbToLuv (AR := R_arith rnd) (Real rnd) pow (mkColor r g b) = Ok (mkColor L u v) /\
        (- (1 / 1000) <= L <= 100 + 1 / 100)%R.
Proof.
  intros rnd pow Hrnd Hpow r g b Hr Hg Hb.
  exact (luv_lightness_unit_cube Hrnd Hpow Hr Hg Hb).
Qed.

Lemma luv_lightness_in_rounded_arithmetic_witness :
  exists L u v : R,
    RgbToLuv (AR := R_arith inflate) (Real inflate) Rpower (mkColor (1 / 2) (1 / 4) 1)%R
    = Ok (mkColor L u v) /\
    (- (1 / 1000) <= L <= 100 + 1 / 100)%R.
Proof.
  apply (@luv_lightness_in_rounded_arithmetic inflate Rpower
           inflate_standard_model Rpower_near_cube_root);
    unfold unit_range; lra.
Defined.

(** X20: under the same assumptions RgbToLuv maps every gray pixel
    (v,v,v) with 1/100 <= v <= 1 close to the neutral axis, not onto
    it: u is within 0.15 and v within 0.05 of zero.  (u' and v' of a
    gray pixel are 3801824/19216718 and 9000000/19216718 whatever the
    level; the constants un and vn of the source differ from them by
    about 0.0001 and 0.00003, and the difference is multiplied by
    13 L.) *)
Theorem luv_gray_in_rounded_arithmetic :
  forall (rnd : R -> R) (pow : R -> R -> R),
    standard_model rnd -> pow_near_cube_root pow ->
    forall v : R,
      (1 / 100 <= v <= 1)%R ->
      exists L u w : R,
        RgbToLuv (AR := R_arith rnd) (Real rnd) pow (gray_pixel v) = Ok (mkColor L u w) /\
        (- (1 / 1000) <= L <= 100 + 1 / 100)%R /\
        (Rabs u <= 15 / 100)%R /\
        (Rabs w <= 5 / 100)%R.
Proof.
  intros rnd pow Hrnd Hpow v Hv. exact (luv_gray_rounded Hrnd Hpow Hv).
Qed.

Lemma luv_gray_in_rounded_arithmetic_witness :
  exists L u w : R,
    RgbToLuv (AR := R_arith inflate) (Real inflate) Rpower (gray_pixel (1 / 2)%R)
    = Ok (mkColor L u w) /\
    (- (1 / 1000) <= L <= 100 + 1 / 100)%R /\
    (Rabs u <= 15 / 100)%R /\
    (Rabs w <= 5 / 100)%R.
Proof.
  apply (@luv_gray_in_rounded_arithmetic inflate Rpower
           inflate_standard_model Rpower_near_cube_root). lra.
Defined.
